(** * edi_parser: a shallow embedding of src/edi/edi_parser.py

    The program parses a segment-delimited EDI claim file, groups the claims
    by the type code found in their BHT segment and writes one output file
    per claim type.  The development follows the source top-down:

    - [Py]        the few Python string primitives the program calls;
    - [Csv]       [csv.reader(fh, delimiter='~')] of the standard library,
                  for the default (excel) dialect;
    - the module constants, [ClaimType], [ErrorCode], [Claim];
    - a state-and-exception monad over the module globals
      ([header], [footer], [claims], [claim_counts]), the heap of Python
      lists shared between [cur_claim_data] and [Claim.data], and the files
      written so far;
    - [init], [parse_input_file], [write_output_file], [split], [verify],
      [handle_error], the call [cli()] of milc and the [__main__] block
      ([run]);
    - the properties. *)

From Stdlib Require Import String Ascii NArith List Lia Bool DecimalString.
From stdpp Require Import base option list gmap strings.
Import ListNotations.

Open Scope string_scope.
Open Scope list_scope.

(** ** Python string primitives *)

Module Py.

(** [bool(s)] for a string: the empty string is falsy. *)
Definition truthy (s : string) : bool :=
  match s with
  | EmptyString => false
  | String _ _ => true
  end.

(** [s.startswith(p)] *)
Definition startswith (s p : string) : bool := String.prefix p s.

(** [s.startswith(tuple(ps))] *)
Definition startswith_any (s : string) (ps : list string) : bool :=
  existsb (startswith s) ps.

(** The pieces of [s] between the characters satisfying [sep]; [k]
    separators give [k + 1] pieces, empty ones included. *)
Fixpoint fragments (sep : ascii -> bool) (s : string) : list string :=
  match s with
  | EmptyString => [EmptyString]
  | String c s' =>
      if sep c then EmptyString :: fragments sep s'
      else match fragments sep s' with
           | [] => [String c EmptyString]
           | f :: fs => String c f :: fs
           end
  end.

(** [s.split(sep)] for a one-character separator. *)
Definition split (s : string) (sep : ascii) : list string :=
  fragments (Ascii.eqb sep) s.

(** [sep.join(l)] *)
Definition join (sep : string) (l : list string) : string :=
  String.concat sep l.

(** [s[:n]] *)
Definition slice_to (s : string) (n : nat) : string := substring 0 n s.

(** [s[i:len(s)]] *)
Definition slice_from (s : string) (i : nat) : string :=
  substring i (String.length s - i) s.

(** [s.index(sub)]: [None] stands for the ValueError. *)
Definition index (s sub : string) : option nat := String.index 0 sub s.

(** [str(n)] for a non-negative int. *)
Definition str (n : N) : string := NilZero.string_of_uint (N.to_uint n).

(** [l[i]]: [None] stands for the IndexError. *)
Definition getitem {A} (l : list A) (i : nat) : option A := l !! i.

End Py.

(** ** csv.reader

    The reader of CPython's [_csv] module, specialised to the dialect the
    program builds: delimiter ['~'], quotechar the double quote,
    doublequote on, no escapechar, no skipinitialspace, not strict,
    QUOTE_MINIMAL, and the default field size limit.  The file object it
    iterates over was opened in text mode with universal newlines.  A NUL
    character is an ordinary character, as it is since CPython 3.11. *)

Module Csv.

Definition LF : ascii := "010"%char.
Definition CR : ascii := "013"%char.
Definition QUOTECHAR : ascii := "034"%char.

(** Text mode, [newline=None]: CR LF and a lone CR are read as LF. *)
Fixpoint universal_newlines (s : string) : string :=
  match s with
  | EmptyString => EmptyString
  | String c s' =>
      if Ascii.eqb c CR then
        match s' with
        | String c' _ =>
            if Ascii.eqb c' LF then universal_newlines s'
            else String LF (universal_newlines s')
        | EmptyString => String LF EmptyString
        end
      else String c (universal_newlines s')
  end.

(** Iterating over the file object: the lines, each with its LF. *)
Fixpoint readlines (s : string) : list string :=
  match s with
  | EmptyString => []
  | String c s' =>
      if Ascii.eqb c LF then String c EmptyString :: readlines s'
      else match readlines s' with
           | [] => [String c EmptyString]
           | l :: ls => String c l :: ls
           end
  end.

Inductive ParserState :=
| START_RECORD | START_FIELD | IN_FIELD
| IN_QUOTED_FIELD | QUOTE_IN_QUOTED_FIELD | EAT_CRNL.

Global Instance ParserState_eq_dec : EqDecision ParserState.
Proof. solve_decision. Defined.

Record Reader := {
  state : ParserState;
  fields : list string;   (* the fields of the record read so far *)
  field : string;          (* the field being collected *)
  field_len : N
}.

Definition field_limit : N := 131072.

Definition set_state (r : Reader) (st : ParserState) : Reader :=
  {| state := st; fields := fields r; field := field r;
     field_len := field_len r |}.

Definition parse_reset : Reader :=
  {| state := START_RECORD; fields := []; field := EmptyString;
     field_len := 0 |}.

(** [None] is the csv.Error for a field larger than the field limit. *)
Definition parse_add_char (r : Reader) (c : ascii) : option Reader :=
  if (field_limit <=? field_len r)%N then None
  else Some {| state := state r; fields := fields r;
               field := field r +:+ String c EmptyString;
               field_len := field_len r + 1 |}.

Definition parse_save_field (r : Reader) : Reader :=
  {| state := state r; fields := fields r ++ [field r];
     field := EmptyString; field_len := 0 |}.

Definition parse_add_char_to (r : Reader) (c : ascii) (st : ParserState)
  : option Reader :=
  match parse_add_char r c with
  | Some r' => Some (set_state r' st)
  | None => None
  end.

Definition is_newline (c : ascii) : bool := Ascii.eqb c LF || Ascii.eqb c CR.

(** One character of a line, or the end of the line ([None], the EOL
    marker the reader feeds itself after the last character). *)
Definition parse_process_char (r : Reader) (c : option ascii) : option Reader :=
  let start_field r :=
    match c with
    | None => Some (set_state (parse_save_field r) START_RECORD)
    | Some c =>
        if is_newline c then Some (set_state (parse_save_field r) EAT_CRNL)
        else if Ascii.eqb c QUOTECHAR then Some (set_state r IN_QUOTED_FIELD)
        else if Ascii.eqb c "~" then Some (parse_save_field r)
        else parse_add_char_to r c IN_FIELD
    end in
  match state r with
  | START_RECORD =>
      match c with
      | None => Some r
      | Some c' =>
          if is_newline c' then Some (set_state r EAT_CRNL)
          else start_field (set_state r START_FIELD)
      end
  | START_FIELD => start_field r
  | IN_FIELD =>
      match c with
      | None => Some (set_state (parse_save_field r) START_RECORD)
      | Some c =>
          if is_newline c then Some (set_state (parse_save_field r) EAT_CRNL)
          else if Ascii.eqb c "~" then
            Some (set_state (parse_save_field r) START_FIELD)
          else parse_add_char r c
      end
  | IN_QUOTED_FIELD =>
      match c with
      | None => Some r
      | Some c =>
          if Ascii.eqb c QUOTECHAR then Some (set_state r QUOTE_IN_QUOTED_FIELD)
          else parse_add_char r c
      end
  | QUOTE_IN_QUOTED_FIELD =>
      match c with
      | None => Some (set_state (parse_save_field r) START_RECORD)
      | Some c =>
          if Ascii.eqb c QUOTECHAR then
            parse_add_char_to r c IN_QUOTED_FIELD
          else if Ascii.eqb c "~" then
            Some (set_state (parse_save_field r) START_FIELD)
          else if is_newline c then
            Some (set_state (parse_save_field r) EAT_CRNL)
          else parse_add_char_to r c IN_FIELD
      end
  | EAT_CRNL =>
      match c with
      | None => Some (set_state r START_RECORD)
      | Some c => if is_newline c then Some r else None
      end
  end.

(** The characters of one line, then the EOL marker. *)
Fixpoint parse_line (r : Reader) (line : string) : option Reader :=
  match line with
  | EmptyString => parse_process_char r None
  | String c line' =>
      match parse_process_char r (Some c) with
      | Some r' => parse_line r' line'
      | None => None
      end
  end.

(** Iterating the reader to exhaustion: the records it yields, in
    order, and whether the iteration ended with a csv.Error.  A record
    is complete when the reader is back in START_RECORD after a line;
    a quoted field left open takes the following line too, and at the
    end of the input an unfinished field closes the last record. *)
Fixpoint reader_from (r : Reader) (lines : list string)
  : list (list string) * bool :=
  match lines with
  | [] =>
      if (negb (field_len r =? 0)%N) || bool_decide (state r = IN_QUOTED_FIELD)
      then ([fields (parse_save_field r)], false)
      else ([], false)
  | line :: rest =>
      match parse_line r line with
      | None => ([], true)
      | Some r' =>
          if bool_decide (state r' = START_RECORD) then
            let '(rows, err) := reader_from parse_reset rest in
            (fields r' :: rows, err)
          else reader_from r' rest
      end
  end.

(** [csv.reader(fh, delimiter='~')] over the content of the file. *)
Definition reader (content : string) : list (list string) * bool :=
  reader_from parse_reset (readlines (universal_newlines content)).

End Csv.

(** ** Module constants and types *)

Definition SEGMENT_DELIMITER : string := "~".
Definition ELEMENT_DELIMITER : ascii := "*".
Definition HEADER_SEGMENTS : list string := ["ISA"; "GS"].
Definition FOOTER_SEGMENTS : list string := ["GE"; "IEA"].
Definition FOOTER_CLAIM_COUNT_SEGMENT : string := "GE".
Definition CLAIM_START_SEGMENT : string := "ST".
Definition CLAIM_END_SEGMENT : string := "SE".
Definition CLAIM_TYPE_SEGMENT : string := "BHT".
Definition CLAIM_TYPE_ELEMENT_NUM : nat := 3.
Definition CLAIM_COUNT_ELEMENT_NUM : nat := 1.

Inductive ClaimType := CE | CF.

Global Instance ClaimType_eq_dec : EqDecision ClaimType.
Proof. solve_decision. Defined.

Global Instance ClaimType_countable : Countable ClaimType.
Proof.
  refine (inj_countable' (fun t => match t with CE => false | CF => true end)
                         (fun b : bool => if b then CF else CE) _).
  intros []; reflexivity.
Defined.

(** Iterating over the enum class: the members in definition order. *)
Definition ClaimType_members : list ClaimType := [CE; CF].

(** [claim_type.name] *)
Definition ClaimType_name (t : ClaimType) : string :=
  match t with CE => "CE" | CF => "CF" end.

(** [ClaimType[name]]: [None] stands for the KeyError. *)
Definition ClaimType_getitem (name : string) : option ClaimType :=
  find (fun t => String.eqb (ClaimType_name t) name) ClaimType_members.

Inductive ErrorCode :=
| ERR_MISSING_SUBCOMMAND | ERR_MISSING_ARG | ERR_CANT_READ_FILE
| ERR_CANT_WRITE_FILE | ERR_HEADER_NOT_FOUND | ERR_FOOTER_NOT_FOUND
| ERR_CLAIM_DATA_NOT_FOUND | ERR_UNKNOWN.

Definition ErrorCode_value (e : ErrorCode) : N :=
  match e with
  | ERR_MISSING_SUBCOMMAND => 1
  | ERR_MISSING_ARG => 2
  | ERR_CANT_READ_FILE => 3
  | ERR_CANT_WRITE_FILE => 4
  | ERR_HEADER_NOT_FOUND => 5
  | ERR_FOOTER_NOT_FOUND => 6
  | ERR_CLAIM_DATA_NOT_FOUND => 7
  | ERR_UNKNOWN => 256
  end.

(** A Python list object is a location of the heap: [cur_claim_data] and
    the [data] attribute of a claim can name the same list. *)
Abbreviation loc := nat.

Record Claim := { claim_type : option ClaimType; data : loc }.

(** ** Exceptions, the environment and the program state *)

(** The OSError subclasses [open] can raise. *)
Inductive OSErrorKind :=
| FileNotFoundError | PermissionError | IsADirectoryError
| NotADirectoryError | OtherOSError.

(** The exceptions below [Exception] that the program can meet. *)
Inductive exn :=
| KeyError | IndexError | ValueError | OSError (k : OSErrorKind) | CsvError.

(** KeyError and IndexError are the two subclasses of LookupError. *)
Definition is_LookupError (e : exn) : bool :=
  match e with KeyError | IndexError => true | _ => false end.

(** What [open(filename, "r")] answers: the file is opened and read as
    the text [content] (its bytes decoded, in the encoding of the
    locale), or [open] raises an OSError. *)
Inductive opened := Opened (content : string) | OpenFails (k : OSErrorKind).

(** What the program takes from its platform: [os.path], and what
    [open] answers for a path in mode "r" and in mode "w". *)
Record Env := {
  os_path_sep : string;
  os_path_basename : string -> string;
  open_r : string -> opened;
  open_w : string -> option OSErrorKind   (* [None]: the file is opened *)
}.

(** The module globals, the heap of list objects, and the files opened
    for writing with what was written to them. *)
Record World := {
  heap : list (list string);
  header : list string;
  footer : list string;
  claims : list Claim;
  claim_counts : gmap (option ClaimType) N;
  files : gmap string string
}.

(** The globals as the module body leaves them. *)
Definition World0 : World :=
  {| heap := []; header := []; footer := []; claims := [];
     claim_counts := ∅; files := ∅ |}.

(** How a call ends: it returns, it raises an exception, or
    [sys.exit] was called (SystemExit, which [except Exception] does not
    catch). *)
Inductive outcome (A : Type) :=
| Ok (a : A) | Raise (e : exn) | Exit (code : N).
Arguments Ok {A} a.
Arguments Raise {A} e.
Arguments Exit {A} code.

Definition M (A : Type) : Type := World -> outcome A * World.

Definition ret {A} (a : A) : M A := fun w => (Ok a, w).

Definition bind {A B} (m : M A) (k : A -> M B) : M B :=
  fun w =>
    match m w with
    | (Ok a, w') => k a w'
    | (Raise e, w') => (Raise e, w')
    | (Exit c, w') => (Exit c, w')
    end.

Definition raise {A} (e : exn) : M A := fun w => (Raise e, w).

Notation "x <- m ;; k" := (bind m (fun x => k))
  (at level 100, m at level 99, k at level 200, right associativity).
Notation "m ;;; k" := (bind m (fun _ => k))
  (at level 100, k at level 200, right associativity).

(** [for x in l: body x] *)
Fixpoint for_each {A} (l : list A) (body : A -> M unit) : M unit :=
  match l with
  | [] => ret tt
  | x :: l' => body x ;;; for_each l' body
  end.

(** [for x in l: ...] where the body updates local variables [S]. *)
Fixpoint for_fold {A S} (l : list A) (body : A -> S -> M S) (s : S) : M S :=
  match l with
  | [] => ret s
  | x :: l' => s' <- body x s ;; for_fold l' body s'
  end.

(** *** The primitive effects *)

Definition set_heap (w : World) (h : list (list string)) : World :=
  {| heap := h; header := header w; footer := footer w; claims := claims w;
     claim_counts := claim_counts w; files := files w |}.

Definition set_header (w : World) (h : list string) : World :=
  {| heap := heap w; header := h; footer := footer w; claims := claims w;
     claim_counts := claim_counts w; files := files w |}.

Definition set_footer (w : World) (f : list string) : World :=
  {| heap := heap w; header := header w; footer := f; claims := claims w;
     claim_counts := claim_counts w; files := files w |}.

Definition set_claims (w : World) (c : list Claim) : World :=
  {| heap := heap w; header := header w; footer := footer w; claims := c;
     claim_counts := claim_counts w; files := files w |}.

Definition set_claim_counts (w : World) (c : gmap (option ClaimType) N) : World :=
  {| heap := heap w; header := header w; footer := footer w;
     claims := claims w; claim_counts := c; files := files w |}.

Definition set_files (w : World) (f : gmap string string) : World :=
  {| heap := heap w; header := header w; footer := footer w;
     claims := claims w; claim_counts := claim_counts w; files := f |}.

Definition get_world : M World := fun w => (Ok w, w).

(** [header.append(seg)] *)
Definition header_append (seg : string) : M unit := fun w =>
  (Ok tt, set_header w (header w ++ [seg])).

(** [footer.append(seg)] *)
Definition footer_append (seg : string) : M unit := fun w =>
  (Ok tt, set_footer w (footer w ++ [seg])).

(** [claims.append(c)] *)
Definition claims_append (c : Claim) : M unit := fun w =>
  (Ok tt, set_claims w (claims w ++ [c])).

(** A list display [[...]]: a new list object. *)
Definition new_list (l : list string) : M loc := fun w =>
  (Ok (length (heap w)), set_heap w (heap w ++ [l])).

(** [l.append(seg)] on the list object at [l]. *)
Definition list_append (l : loc) (seg : string) : M unit := fun w =>
  (Ok tt, set_heap w (alter (fun d => d ++ [seg]) l (heap w))).

(** The segments of the list object at [l]. *)
Definition deref (w : World) (l : loc) : list string :=
  default [] (heap w !! l).

(** [claim_counts[key]] *)
Definition counts_getitem (key : option ClaimType) : M N := fun w =>
  match claim_counts w !! key with
  | Some n => (Ok n, w)
  | None => (Raise KeyError, w)
  end.

(** [claim_counts[key] = n] *)
Definition counts_setitem (key : option ClaimType) (n : N) : M unit := fun w =>
  (Ok tt, set_claim_counts w (<[key := n]> (claim_counts w))).

(** [open(filename, "w")] when it succeeds: the file is there and empty. *)
Definition fh_open (filename : string) : M unit := fun w =>
  (Ok tt, set_files w (<[filename := EmptyString]> (files w))).

(** [fh.write(s)] on the file opened at [filename]. *)
Definition fh_write (filename s : string) : M unit := fun w =>
  (Ok tt, set_files w (alter (fun c => c +:+ s) filename (files w))).

(** [handle_error]: log the error, then [sys.exit(error_code.value)]. *)
Definition handle_error {A} (error_code : ErrorCode) : M A := fun w =>
  (Exit (ErrorCode_value error_code), w).

(** ** The program *)

Definition init : M unit :=
  for_each ClaimType_members (fun ctype => counts_setitem (Some ctype) 0).

(** The local variables of [parse_input_file]. *)
Record Locals := { cur_claim_data : loc; cur_claim_type : option ClaimType }.

(** The body of the inner loop of [parse_input_file]. *)
Definition parse_segment (segment : string) (l : Locals) : M Locals :=
  if Py.truthy segment then
    if Py.startswith_any segment HEADER_SEGMENTS then
      header_append segment ;;; ret l
    else if Py.startswith_any segment FOOTER_SEGMENTS then
      footer_append segment ;;; ret l
    else if Py.startswith segment CLAIM_START_SEGMENT then
      d <- new_list [segment] ;;
      ret {| cur_claim_data := d; cur_claim_type := cur_claim_type l |}
    else if Py.startswith segment CLAIM_END_SEGMENT then
      list_append (cur_claim_data l) segment ;;;
      claims_append {| claim_type := cur_claim_type l;
                       data := cur_claim_data l |} ;;;
      n <- counts_getitem (cur_claim_type l) ;;
      counts_setitem (cur_claim_type l) (n + 1) ;;;
      ret l
    else
      list_append (cur_claim_data l) segment ;;;
      if Py.startswith segment CLAIM_TYPE_SEGMENT then
        let elements := Py.split segment ELEMENT_DELIMITER in
        match Py.getitem elements CLAIM_TYPE_ELEMENT_NUM with
        | None => raise IndexError
        | Some type_element =>
            match ClaimType_getitem (Py.slice_to type_element 2) with
            | None => raise KeyError
            | Some t =>
                ret {| cur_claim_data := cur_claim_data l;
                       cur_claim_type := Some t |}
            end
        end
      else ret l
  else ret l.

(** The two nested loops over the records of the reader. *)
Definition parse_rows (rows : list (list string)) (l : Locals) : M Locals :=
  for_fold rows (fun segments l => for_fold segments parse_segment l) l.

Definition parse_input_file (env : Env) (filename : string) : M unit :=
  match open_r env filename with
  | OpenFails FileNotFoundError | OpenFails PermissionError =>
      handle_error ERR_CANT_READ_FILE
  | OpenFails k => raise (OSError k)
  | Opened content =>
      d <- new_list [] ;;
      let '(rows, csv_error) := Csv.reader content in
      parse_rows rows {| cur_claim_data := d; cur_claim_type := None |} ;;;
      if csv_error then raise CsvError else ret tt
  end.

(** [elements[i] = x]: [None] stands for the IndexError. *)
Definition list_setitem (elements : list string) (i : nat) (x : string)
  : option (list string) :=
  if decide (i < length elements) then Some (<[i := x]> elements) else None.

(** The body of the loop over [claims] in [write_output_file]. *)
Definition write_claim_data (filename : string) (ctype : ClaimType)
    (claim_item : Claim) : M unit :=
  if decide (claim_type claim_item = Some ctype) then
    fh_write filename SEGMENT_DELIMITER ;;;
    w <- get_world ;;
    fh_write filename (Py.join SEGMENT_DELIMITER (deref w (data claim_item)))
  else ret tt.

(** The body of the loop over [footer] in [write_output_file]. *)
Definition write_footer_segment (filename : string) (ctype : ClaimType)
    (segment : string) : M unit :=
  fh_write filename SEGMENT_DELIMITER ;;;
  segment' <-
    (if Py.startswith segment FOOTER_CLAIM_COUNT_SEGMENT then
       let elements := Py.split segment ELEMENT_DELIMITER in
       n <- counts_getitem (Some ctype) ;;
       match list_setitem elements CLAIM_COUNT_ELEMENT_NUM (Py.str n) with
       | None => raise IndexError
       | Some elements' =>
           ret (Py.join (String ELEMENT_DELIMITER EmptyString) elements')
       end
     else ret segment) ;;
  fh_write filename segment'.

Definition write_output_file (env : Env) (output_dir : string)
    (ctype : ClaimType) (prefix suffix : string) : M unit :=
  n <- counts_getitem (Some ctype) ;;
  if negb (n =? 0)%N then
    let filename := output_dir +:+ os_path_sep env +:+ prefix +:+ "_"
                    +:+ ClaimType_name ctype +:+ suffix in
    match open_w env filename with
    | Some FileNotFoundError | Some PermissionError =>
        handle_error ERR_CANT_WRITE_FILE
    | Some k => raise (OSError k)
    | None =>
        fh_open filename ;;;
        w <- get_world ;;
        fh_write filename (Py.join SEGMENT_DELIMITER (header w)) ;;;
        for_each (claims w) (write_claim_data filename ctype) ;;;
        for_each (footer w) (write_footer_segment filename ctype)
    end
  else ret tt.

(** A command-line option is set when it is neither [None] nor empty. *)
Definition require_arg (arg : option string) : M string :=
  match arg with
  | Some a => if Py.truthy a then ret a else handle_error ERR_MISSING_ARG
  | None => handle_error ERR_MISSING_ARG
  end.

(** [print_summary_report] only echoes the sizes of the globals. *)
Definition verify (env : Env) (input_file : option string) : M unit :=
  input_file <- require_arg input_file ;;
  parse_input_file env input_file.

Definition split (env : Env) (input_file output_dir : option string) : M unit :=
  input_file <- require_arg input_file ;;
  output_dir <- require_arg output_dir ;;
  parse_input_file env input_file ;;;
  w <- get_world ;;
  (if bool_decide (header w = []) then handle_error ERR_HEADER_NOT_FOUND else ret tt) ;;;
  (if bool_decide (footer w = []) then handle_error ERR_FOOTER_NOT_FOUND else ret tt) ;;;
  (if bool_decide (claims w = []) then handle_error ERR_CLAIM_DATA_NOT_FOUND else ret tt) ;;;
  let input_filename := os_path_basename env input_file in
  match Py.index input_filename "." with
  | None => raise ValueError
  | Some first_period =>
      let prefix := Py.slice_to input_filename first_period in
      let suffix := Py.slice_from input_filename first_period in
      for_each ClaimType_members (fun ctype =>
        n <- counts_getitem (Some ctype) ;;
        if negb (n =? 0)%N then
          write_output_file env output_dir ctype prefix suffix
        else ret tt)
  end.

Inductive Command :=
| NoSubcommand
| VerifyCmd (input_file : option string)
| SplitCmd (input_file output_dir : option string).

(** The entry point, called when no subcommand is given. *)
Definition main : M unit := handle_error ERR_MISSING_SUBCOMMAND.

(** The function [cli()] calls: the entry point, or the subcommand
    named on the command line. *)
Definition dispatch (env : Env) (cmd : Command) : M unit :=
  match cmd with
  | NoSubcommand => main
  | VerifyCmd input_file => verify env input_file
  | SplitCmd input_file output_dir => split env input_file output_dir
  end.

(** The exit status milc gives a process whose entry point or
    subcommand raised an exception. *)
Definition MILC_EXCEPTION_EXIT : N := 255.

(** [cli()], the call of the milc object.  milc runs the function inside
    its own context manager, whose [__exit__] calls [sys.exit(255)] when
    the function was left by an exception other than SystemExit; a
    [sys.exit] of the function itself passes through unchanged. *)
Definition cli (env : Env) (cmd : Command) : M unit := fun w =>
  match dispatch env cmd w with
  | (Raise _, w') => (Exit MILC_EXCEPTION_EXIT, w')
  | r => r
  end.

(** The [__main__] block: [init()], then [cli()], and ERR_UNKNOWN for an
    exception below [Exception] that reaches the except clause.
    SystemExit is not below [Exception], so the exit of milc and the
    exits of [handle_error] end the run with their own status. *)
Definition run (env : Env) (cmd : Command) : M unit := fun w =>
  match (init ;;; cli env cmd) w with
  | (Raise _, w') => handle_error ERR_UNKNOWN w'
  | r => r
  end.

(** ** The dispatch of the classifier, as a function of the segment *)

Inductive SegmentKind :=
| EmptySegment | HeaderSegment | FooterSegment
| ClaimStart | ClaimEnd | ClaimTypeSegment | ClaimOther.

Global Instance SegmentKind_eq_dec : EqDecision SegmentKind.
Proof. solve_decision. Defined.

(** The branch of the loop body of [parse_input_file] a segment takes:
    the tests of the source, in the order of the source. *)
Definition kind_of (segment : string) : SegmentKind :=
  if negb (Py.truthy segment) then EmptySegment
  else if Py.startswith_any segment HEADER_SEGMENTS then HeaderSegment
  else if Py.startswith_any segment FOOTER_SEGMENTS then FooterSegment
  else if Py.startswith segment CLAIM_START_SEGMENT then ClaimStart
  else if Py.startswith segment CLAIM_END_SEGMENT then ClaimEnd
  else if Py.startswith segment CLAIM_TYPE_SEGMENT then ClaimTypeSegment
  else ClaimOther.

(** The segments the two loops hand to the classifier, as one sequence. *)
Definition classify (segs : list string) (l : Locals) : M Locals :=
  for_fold segs parse_segment l.

(** The tokenization stage: the fields of all records of the reader, in
    order, without the empty ones the loop body skips. *)
Definition segments_of (content : string) : list string :=
  filter (fun s => Py.truthy s = true) (concat (fst (Csv.reader content))).

(** [sum(claim_counts[t] for t in ClaimType)] *)
Definition sum_counts (w : World) : N :=
  foldr (fun t acc => (default 0 (claim_counts w !! Some t) + acc)%N) 0%N
        ClaimType_members.

(** *** Well-formed inputs

    The layout the module docstring describes: header segments, then any
    number of claims, each from its ST segment to its SE segment, then
    footer segments. *)

Inductive Phase := InHeader | InClaim | BetweenClaims | InFooter.

Global Instance Phase_eq_dec : EqDecision Phase.
Proof. solve_decision. Defined.

Fixpoint well_formed_from (p : Phase) (segs : list string) : bool :=
  match segs with
  | [] => match p with InClaim => false | _ => true end
  | s :: rest =>
      match kind_of s, p with
      | HeaderSegment, InHeader => well_formed_from InHeader rest
      | ClaimStart, (InHeader | BetweenClaims) => well_formed_from InClaim rest
      | (ClaimTypeSegment | ClaimOther), InClaim => well_formed_from InClaim rest
      | ClaimEnd, InClaim => well_formed_from BetweenClaims rest
      | FooterSegment, (InHeader | BetweenClaims | InFooter) =>
          well_formed_from InFooter rest
      | _, _ => false
      end
  end.

Definition well_formed (segs : list string) : bool :=
  well_formed_from InHeader segs.

(** The number of claim-start/claim-end pairs: every claim-end segment
    that closes a claim-start segment still open. *)
Fixpoint claim_pairs_from (opened : bool) (segs : list string) : nat :=
  match segs with
  | [] => 0
  | s :: rest =>
      match kind_of s with
      | ClaimStart => claim_pairs_from true rest
      | ClaimEnd =>
          if opened then S (claim_pairs_from false rest)
          else claim_pairs_from false rest
      | _ => claim_pairs_from opened rest
      end
  end.

Definition claim_pairs (segs : list string) : nat :=
  claim_pairs_from false segs.

(** ** Definitions the properties are stated with *)

(** *** The world after a step of the classifier *)

(** The world after [cur_claim_data.append(segment)]. *)
Definition appended (w : World) (l : Locals) (segment : string) : World :=
  set_heap w (alter (fun d => d ++ [segment]) (cur_claim_data l) (heap w)).

(** The world after the claim of the current buffer is appended to
    [claims], the claim-end segment included. *)
Definition sealed (w : World) (l : Locals) (segment : string) : World :=
  set_claims (appended w l segment)
    (claims w ++ [{| claim_type := cur_claim_type l; data := cur_claim_data l |}]).

(** [None] is not a key of [claim_counts], and the counts add up to the
    number of claims. *)
Definition counts_agree (w : World) : Prop :=
  claim_counts w !! None = None /\
  sum_counts w = N.of_nat (length (claims w)).

(** The number of claim-end segments of a sequence. *)
Definition claim_ends (segs : list string) : nat :=
  length (filter (fun s => kind_of s = ClaimEnd) segs).

(** The current buffer starts with a claim-start segment. *)
Definition buffer_started (l : Locals) (w : World) : Prop :=
  exists first rest,
    heap w !! cur_claim_data l = Some (first :: rest) /\
    Py.startswith first CLAIM_START_SEGMENT = true.

(** The data of a claim as C4 describes it. *)
Definition starts_and_ends (d : list string) : Prop :=
  exists first last_segment,
    head d = Some first /\ Py.startswith first CLAIM_START_SEGMENT = true /\
    last d = Some last_segment /\
    Py.startswith last_segment CLAIM_END_SEGMENT = true.

(** *** The content of an output file *)

(** The name [write_output_file] gives the file of a claim type. *)
Definition output_filename (env : Env) (output_dir : string) (t : ClaimType)
    (prefix suffix : string) : string :=
  output_dir +:+ os_path_sep env +:+ prefix +:+ "_" +:+ ClaimType_name t
  +:+ suffix.

(** The content C1 describes, piece by piece. *)
Fixpoint claims_text (w : World) (t : ClaimType) (cs : list Claim) : string :=
  match cs with
  | [] => EmptyString
  | c :: cs' =>
      (if decide (claim_type c = Some t)
       then "~" +:+ Py.join "~" (deref w (data c)) else EmptyString)
      +:+ claims_text w t cs'
  end.

Definition footer_segment_text (n : N) (segment : string) : string :=
  if Py.startswith segment "GE"
  then Py.join "*" (<[1 := Py.str n]> (Py.split segment "*"))
  else segment.

Fixpoint footer_text (n : N) (segments : list string) : string :=
  match segments with
  | [] => EmptyString
  | segment :: rest =>
      "~" +:+ footer_segment_text n segment +:+ footer_text n rest
  end.

Definition expected_output (w : World) (t : ClaimType) (n : N) : string :=
  Py.join "~" (header w) +:+ claims_text w t (claims w)
  +:+ footer_text n (footer w).

(** The world while the file [fn] is written: [c] is what was written
    so far. *)
Definition writing (fn : string) (w : World) (F : gmap string string)
    (c : string) : World :=
  set_files w (<[fn := c]> F).

(** *** The tokenization stage *)

(** A segment ends at the delimiter and at a line break. *)
Definition is_segment_end (c : ascii) : bool :=
  Ascii.eqb c "~" || Csv.is_newline c.

(** What the test [if segment] lets through. *)
Definition nonempty (l : list string) : list string :=
  filter (fun s => Py.truthy s = true) l.

(** The segments the reader and the [if segment] test produce, and
    whether the reader ended with a csv.Error. *)
Definition tokens (res : list (list string) * bool) : list string :=
  nonempty (concat (fst res)).

(** Whether the character [x] is in [s]. *)
Fixpoint occurs (x : ascii) (s : string) : bool :=
  match s with
  | EmptyString => false
  | String c s' => Ascii.eqb c x || occurs x s'
  end.

(** The text with its line breaks taken out. *)
Fixpoint remove_line_breaks (s : string) : string :=
  match s with
  | EmptyString => EmptyString
  | String c s' =>
      if Csv.is_newline c then remove_line_breaks s'
      else String c (remove_line_breaks s')
  end.

(** A field the reader accepts: at most [field_limit] characters. *)
Definition within_field_limit (f : string) : Prop :=
  (N.of_nat (String.length f) <= Csv.field_limit)%N.

(** [cur] in front of the first piece. *)
Definition prepend (cur : string) (pieces : list string) : list string :=
  match pieces with
  | [] => [cur]
  | f :: fs => (cur +:+ f) :: fs
  end.

(** The reader in the middle of a line: [s] is the rest of the text. *)
Definition reader_rest (r : Csv.Reader) (s : string) : list (list string) * bool :=
  match Csv.readlines s with
  | [] => Csv.reader_from r [EmptyString]
  | lines => Csv.reader_from r lines
  end.

(** The reader with the fields [fs] read and the field [cur] begun. *)
Definition in_record (st : Csv.ParserState) (fs : list string) (cur : string)
  : Csv.Reader :=
  {| Csv.state := st; Csv.fields := fs; Csv.field := cur;
     Csv.field_len := N.of_nat (String.length cur) |}.

(** *** Platforms and inputs of the examples *)

(** [os.path.basename] of posixpath: what follows the last slash. *)
Definition posix_basename (path : string) : string :=
  List.last (Py.split path "/") EmptyString.

(** A platform where one file can be read and every file be written. *)
Definition one_file (name content : string) : Env :=
  {| os_path_sep := "/";
     os_path_basename := posix_basename;
     open_r := fun f => if String.eqb f name then Opened content
                        else OpenFails FileNotFoundError;
     open_w := fun _ => None |}.

(** A platform where [open] for reading fails with the error [k]. *)
Definition unreadable (k : OSErrorKind) : Env :=
  {| os_path_sep := "/";
     os_path_basename := posix_basename;
     open_r := fun _ => OpenFails k;
     open_w := fun _ => None |}.

Definition newline : string := String Csv.LF EmptyString.

(** A well-formed file: one claim of each type. *)
Definition two_claims : string :=
  "ISA*00~GS*HC~ST*837*0001~BHT*0019*00*CE0001*20220101*1200~SE*3*0001~"
  +:+ "ST*837*0002~BHT*0019*00*CF0002*20220101*1201~SE*3*0002~GE*2*1~IEA*1~"
  +:+ newline.

(** A claim without a BHT segment, before any other claim. *)
Definition claim_end_first : string := "ISA*00~GS*HC~ST*837*0001~SE*2*0001~GE*1*1~IEA*1~".

(** A claim with a BHT segment, then a claim without one. *)
Definition inherited_type_input : list string :=
  ["ST*837*0001"; "BHT*0019*00*CE0001"; "SE*3*0001"; "ST*837*0002"; "NM1*41"; "SE*3*0002"].

(** A BHT and an SE segment with no ST segment before them. *)
Definition claim_end_unopened : string :=
  "ISA*00~GS*HC~BHT*0019*00*CE0001~SE*2*0001~GE*1*1~IEA*1~".

(** A GE segment without any element after its name. *)
Definition footer_without_count : string :=
  "ISA*00~GS*HC~ST*837*0001~BHT*0019*00*CE0001~SE*3*0001~GE~IEA*1~".

(** A file of two lines: the first line ends inside the BHT segment. *)
Definition split_across_lines : string :=
  "ISA*00~GS*HC~ST*837*0001~BH" +:+ newline
  +:+ "T*0019*00*CE0001~SE*3*0001~GE*1*1~IEA*1~" +:+ newline.

(** *** Further definitions *)

(** A command-line option that is not set. *)
Definition missing (arg : option string) : Prop :=
  arg = None \/ arg = Some EmptyString.

(** Two worlds with the same globals and the same list objects: they
    differ in the files written at most. *)
Definition same_globals (w w' : World) : Prop :=
  heap w' = heap w /\ header w' = header w /\ footer w' = footer w /\
  claims w' = claims w /\ claim_counts w' = claim_counts w.

(** The claims of one type, in list order. *)
Definition claims_of_type (t : ClaimType) (cs : list Claim) : list Claim :=
  filter (fun c => claim_type c = Some t) cs.

(** The segments of a sequence that take a given branch. *)
Definition of_kind (k : SegmentKind) (segs : list string) : list string :=
  filter (fun s => kind_of s = k) segs.

(** The world [w] with the output file of the type [t] written, when
    the registry [w0] has claims of that type. *)
Definition with_output (env : Env) (output_dir prefix suffix : string)
    (t : ClaimType) (w0 w : World) : World :=
  match claim_counts w0 !! Some t with
  | Some n =>
      if (0 <? n)%N
      then set_files w (<[output_filename env output_dir t prefix suffix
                          := expected_output w0 t n]> (files w))
      else w
  | None => w
  end.

(** A footer whose GE segments have an element 1. *)
Definition footer_has_counts (segments : list string) : Prop :=
  Forall (fun segment => Py.startswith segment "GE" = true ->
                         1 < length (Py.split segment "*")) segments.

(** The counts agree with the claims type by type, [None] is not a key
    of [claim_counts], and every claim has a type. *)
Definition counts_by_type (w : World) : Prop :=
  claim_counts w !! None = None /\
  (forall t, claim_counts w !! Some t
             = Some (N.of_nat (length (claims_of_type t (claims w))))) /\
  Forall (fun c => is_Some (claim_type c)) (claims w).

(** Whether every lookup of the classifier succeeds on a sequence of
    segments: each BHT segment names a claim type, and a type was
    resolved ([typed]) before each claim-end segment. *)
Fixpoint types_resolve (typed : bool) (segs : list string) : bool :=
  match segs with
  | [] => true
  | s :: rest =>
      match kind_of s with
      | ClaimTypeSegment =>
          match Py.split s ELEMENT_DELIMITER !! CLAIM_TYPE_ELEMENT_NUM with
          | Some type_element =>
              match ClaimType_getitem (Py.slice_to type_element 2) with
              | Some _ => types_resolve true rest
              | None => false
              end
          | None => false
          end
      | ClaimEnd => typed && types_resolve typed rest
      | _ => types_resolve typed rest
      end
  end.

Definition is_typed (l : Locals) : bool :=
  match cur_claim_type l with Some _ => true | None => false end.

(** The list object of every claim is in the heap. *)
Definition claims_allocated (w : World) : Prop :=
  Forall (fun c => data c < length (heap w)) (claims w).

(** The keys of [claim_counts] as [init] makes them. *)
Definition counts_keyed (w : World) : Prop :=
  claim_counts w !! None = None /\
  forall t, is_Some (claim_counts w !! Some t).

(** Whether a character of [s] satisfies [p]. *)
Fixpoint any_char (p : ascii -> bool) (s : string) : bool :=
  match s with
  | EmptyString => false
  | String c s' => p c || any_char p s'
  end.

(** A segment the tokenization stage gives back as it was written: not
    empty, without delimiter, line break or double quote, and within the
    field limit of the reader. *)
Definition plain_segment (s : string) : Prop :=
  Py.truthy s = true /\ any_char is_segment_end s = false /\
  occurs Csv.QUOTECHAR s = false /\ within_field_limit s.

(** The segments [write_output_file] writes for a claim type, in the
    order it writes them. *)
Definition output_segments (w : World) (t : ClaimType) (n : N) : list string :=
  header w
  ++ concat (map (fun c => deref w (data c)) (claims_of_type t (claims w)))
  ++ map (footer_segment_text n) (footer w).

(** * Properties *)

(** ** The monad *)

Lemma bind_ok {A B} (m : M A) (k : A -> M B) w a w' :
  m w = (Ok a, w') -> bind m k w = k a w'.
Proof. intros H. unfold bind. rewrite H. reflexivity. Qed.

Lemma bind_raise {A B} (m : M A) (k : A -> M B) w e w' :
  m w = (Raise e, w') -> bind m k w = (Raise e, w').
Proof. intros H. unfold bind. rewrite H. reflexivity. Qed.

Lemma bind_exit {A B} (m : M A) (k : A -> M B) w c w' :
  m w = (Exit c, w') -> bind m k w = (Exit c, w').
Proof. intros H. unfold bind. rewrite H. reflexivity. Qed.

(** A bind that returns: its first half returned too. *)
Lemma bind_ok_inv {A B} (m : M A) (k : A -> M B) w b w2 :
  bind m k w = (Ok b, w2) ->
  exists a w1, m w = (Ok a, w1) /\ k a w1 = (Ok b, w2).
Proof.
  unfold bind. destruct (m w) as [[a|e|c] w1]; intros H; try discriminate.
  eauto.
Qed.

Lemma for_fold_app {A S} (body : A -> S -> M S) l1 l2 s w :
  for_fold (l1 ++ l2) body s w =
  bind (for_fold l1 body s) (for_fold l2 body) w.
Proof.
  revert s w. induction l1 as [|x l1 IH]; intros s w; simpl.
  - reflexivity.
  - unfold bind. destruct (body x s w) as [[s'|e|c] w']; try reflexivity.
    rewrite IH. reflexivity.
Qed.

Lemma classify_app segs1 segs2 l w :
  classify (segs1 ++ segs2) l w = bind (classify segs1 l) (classify segs2) w.
Proof. apply for_fold_app. Qed.

Lemma classify_cons s segs l w :
  classify (s :: segs) l w = bind (parse_segment s l) (classify segs) w.
Proof. reflexivity. Qed.

(** The nested loops visit the fields of the records in order. *)
Lemma parse_rows_classify rows l w :
  parse_rows rows l w = classify (concat rows) l w.
Proof.
  unfold parse_rows. revert l w.
  induction rows as [|row rows IH]; intros l w; simpl.
  - reflexivity.
  - rewrite classify_app. unfold bind, classify.
    destruct (for_fold row parse_segment l w) as [[l'|e|c] w']; auto.
Qed.

(** ** Prefixes *)

Lemma prefix_cons_inv a p s :
  String.prefix (String a p) s = true ->
  exists s', s = String a s' /\ String.prefix p s' = true.
Proof.
  destruct s as [|b s']; simpl; [discriminate|].
  destruct (ascii_dec a b) as [->|]; [|discriminate]. eauto.
Qed.

Ltac invert_prefix H :=
  repeat (apply prefix_cons_inv in H; destruct H as (? & -> & H)).

(** [String.prefix] recurses on the string, so a test against a known
    prefix is decided once the remaining tail is a constructor. *)
Ltac destruct_tail :=
  match goal with s : string |- _ => destruct s; reflexivity end.

Lemma kind_of_claim_start s :
  Py.startswith s CLAIM_START_SEGMENT = true -> kind_of s = ClaimStart.
Proof. unfold Py.startswith, CLAIM_START_SEGMENT. intros H. invert_prefix H. by destruct_tail. Qed.

Lemma kind_of_claim_end s :
  Py.startswith s CLAIM_END_SEGMENT = true -> kind_of s = ClaimEnd.
Proof. unfold Py.startswith, CLAIM_END_SEGMENT. intros H. invert_prefix H. by destruct_tail. Qed.

Lemma kind_of_claim_type s :
  Py.startswith s CLAIM_TYPE_SEGMENT = true -> kind_of s = ClaimTypeSegment.
Proof. unfold Py.startswith, CLAIM_TYPE_SEGMENT. intros H. invert_prefix H. by destruct_tail. Qed.

Lemma kind_of_not_claim_type s :
  Py.startswith s CLAIM_TYPE_SEGMENT = false -> kind_of s <> ClaimTypeSegment.
Proof.
  intros H. unfold kind_of.
  repeat match goal with |- context [if ?b then _ else _] => destruct b end;
    congruence.
Qed.

(** ** The classifier, branch by branch *)

Lemma parse_segment_empty s l w :
  kind_of s = EmptySegment -> parse_segment s l w = (Ok l, w).
Proof.
  unfold kind_of, parse_segment. destruct (Py.truthy s); simpl; [|reflexivity].
  repeat match goal with |- context [if ?b then _ else _] => destruct b end;
    discriminate.
Qed.

Ltac by_kind :=
  unfold kind_of, parse_segment;
  repeat match goal with
         | |- context [if negb ?b then _ else _] => destruct b; simpl
         | |- context [if ?b then _ else _] => destruct b
         end;
  try discriminate; intros _; try reflexivity.

Lemma parse_segment_header s l w :
  kind_of s = HeaderSegment ->
  parse_segment s l w = (Ok l, set_header w (header w ++ [s])).
Proof. by_kind. Qed.

Lemma parse_segment_footer s l w :
  kind_of s = FooterSegment ->
  parse_segment s l w = (Ok l, set_footer w (footer w ++ [s])).
Proof. by_kind. Qed.

Lemma parse_segment_claim_start s l w :
  kind_of s = ClaimStart ->
  parse_segment s l w =
    (Ok {| cur_claim_data := length (heap w); cur_claim_type := cur_claim_type l |},
     set_heap w (heap w ++ [[s]])).
Proof. by_kind. Qed.

Lemma parse_segment_claim_end s l w :
  kind_of s = ClaimEnd ->
  parse_segment s l w =
    match claim_counts w !! cur_claim_type l with
    | Some n =>
        (Ok l, set_claim_counts (sealed w l s)
                 (<[cur_claim_type l := (n + 1)%N]> (claim_counts w)))
    | None => (Raise KeyError, sealed w l s)
    end.
Proof.
  by_kind. unfold bind, counts_getitem; simpl.
  destruct (claim_counts w !! cur_claim_type l); reflexivity.
Qed.

Lemma parse_segment_claim_type s l w :
  kind_of s = ClaimTypeSegment ->
  parse_segment s l w =
    match Py.split s ELEMENT_DELIMITER !! CLAIM_TYPE_ELEMENT_NUM with
    | Some type_element =>
        match ClaimType_getitem (Py.slice_to type_element 2) with
        | Some t =>
            (Ok {| cur_claim_data := cur_claim_data l; cur_claim_type := Some t |},
             appended w l s)
        | None => (Raise KeyError, appended w l s)
        end
    | None => (Raise IndexError, appended w l s)
    end.
Proof.
  by_kind. unfold bind, Py.getitem; simpl.
  destruct (Py.split s ELEMENT_DELIMITER !! CLAIM_TYPE_ELEMENT_NUM); [|reflexivity].
  destruct (ClaimType_getitem _); reflexivity.
Qed.

Lemma parse_segment_claim_other s l w :
  kind_of s = ClaimOther -> parse_segment s l w = (Ok l, appended w l s).
Proof. by_kind. Qed.

(** ** Counting: [claim_counts] against [claims] *)

Lemma sum_counts_insert w t n :
  claim_counts w !! Some t = Some n ->
  sum_counts (set_claim_counts w (<[Some t := (n + 1)%N]> (claim_counts w)))
  = (sum_counts w + 1)%N.
Proof.
  intros H. unfold sum_counts; simpl.
  destruct t; rewrite ?lookup_insert_eq, ?lookup_insert_ne by discriminate;
    rewrite H; simpl; lia.
Qed.

Lemma claim_ends_single s :
  claim_ends [s] = if bool_decide (kind_of s = ClaimEnd) then 1 else 0.
Proof.
  unfold claim_ends. rewrite filter_cons, filter_nil.
  destruct (decide (kind_of s = ClaimEnd)) as [H|H].
  - rewrite bool_decide_eq_true_2 by done. reflexivity.
  - rewrite bool_decide_eq_false_2 by done. reflexivity.
Qed.

Lemma parse_segment_counts s l w l' w' :
  counts_agree w ->
  parse_segment s l w = (Ok l', w') ->
  counts_agree w' /\
  length (claims w') = length (claims w) + claim_ends [s].
Proof.
  intros [Hnone Hsum] Hstep. rewrite claim_ends_single. unfold counts_agree.
  destruct (kind_of s) eqn:Hk; simpl.
  - rewrite parse_segment_empty in Hstep by done. simplify_eq.
    split; [done | lia].
  - rewrite parse_segment_header in Hstep by done. simplify_eq.
    split; [done | simpl; lia].
  - rewrite parse_segment_footer in Hstep by done. simplify_eq.
    split; [done | simpl; lia].
  - rewrite parse_segment_claim_start in Hstep by done. simplify_eq.
    split; [done | simpl; lia].
  - rewrite parse_segment_claim_end in Hstep by done.
    destruct (claim_counts w !! cur_claim_type l) as [n|] eqn:Hn; [|discriminate].
    simplify_eq.
    destruct (cur_claim_type l') as [t|] eqn:Ht; [|congruence].
    simpl. rewrite length_app. simpl. split; [split|lia].
    + rewrite lookup_insert_ne by discriminate. done.
    + pose proof (sum_counts_insert (sealed w l' s) t n Hn) as Hi.
      unfold sum_counts in *. simpl in *. rewrite Hi, Hsum. lia.
  - rewrite parse_segment_claim_type in Hstep by done.
    destruct (Py.split s ELEMENT_DELIMITER !! CLAIM_TYPE_ELEMENT_NUM);
      [|discriminate].
    destruct (ClaimType_getitem _); [|discriminate].
    simplify_eq. split; [done | simpl; lia].
  - rewrite parse_segment_claim_other in Hstep by done. simplify_eq.
    split; [done | simpl; lia].
Qed.

Lemma claim_ends_cons s segs :
  claim_ends (s :: segs) = claim_ends [s] + claim_ends segs.
Proof.
  unfold claim_ends. rewrite filter_cons, filter_cons, filter_nil.
  destruct (decide (kind_of s = ClaimEnd)); reflexivity.
Qed.

Lemma classify_counts segs l w l' w' :
  counts_agree w ->
  classify segs l w = (Ok l', w') ->
  counts_agree w' /\
  length (claims w') = length (claims w) + claim_ends segs.
Proof.
  revert l w. induction segs as [|s segs IH]; intros l w Hinv Hrun.
  - unfold classify in Hrun. simpl in Hrun. unfold ret in Hrun. simplify_eq.
    split; [done|]. unfold claim_ends. simpl. lia.
  - rewrite classify_cons in Hrun.
    apply bind_ok_inv in Hrun as (l1 & w1 & Hstep & Hrest).
    destruct (parse_segment_counts _ _ _ _ _ Hinv Hstep) as [Hinv1 Hlen1].
    destruct (IH _ _ Hinv1 Hrest) as [Hinv' Hlen'].
    split; [done|]. rewrite (claim_ends_cons s segs). lia.
Qed.

(** In a well-formed input every claim-end segment closes a claim. *)
Lemma well_formed_pairs p segs :
  well_formed_from p segs = true ->
  claim_pairs_from (bool_decide (p = InClaim)) segs = claim_ends segs.
Proof.
  revert p. induction segs as [|s segs IH]; intros p Hwf; [reflexivity|].
  rewrite claim_ends_cons, claim_ends_single. simpl in *.
  destruct (kind_of s), p; try discriminate; simpl;
    rewrite <- (IH _ Hwf); reflexivity.
Qed.

Lemma claim_ends_truthy segs :
  claim_ends (filter (fun s => Py.truthy s = true) segs) = claim_ends segs.
Proof.
  induction segs as [|s segs IH]; [reflexivity|].
  rewrite claim_ends_cons. rewrite filter_cons.
  destruct (decide (Py.truthy s = true)) as [Ht|Ht].
  - rewrite claim_ends_cons. lia.
  - rewrite IH, claim_ends_single.
    rewrite bool_decide_eq_false_2; [reflexivity|].
    unfold kind_of. destruct (Py.truthy s); [done | discriminate].
Qed.

Lemma init_spec w :
  init w = (Ok tt, set_claim_counts w
                     (<[Some CF := 0%N]> (<[Some CE := 0%N]> (claim_counts w)))).
Proof. reflexivity. Qed.

(** A run is [init], then the function [cli()] calls; an exception that
    leaves the function ends the run with the exit status of milc. *)
Lemma run_dispatch env cmd w :
  run env cmd w =
    match dispatch env cmd (snd (init w)) with
    | (Raise _, w') => (Exit 255, w')
    | r => r
    end.
Proof.
  unfold run, bind, cli. rewrite init_spec. cbn [snd].
  by destruct (dispatch env cmd _) as [[a|e|c] w'].
Qed.

Lemma init_counts_agree w :
  claims w = [] -> claim_counts w = ∅ -> counts_agree (snd (init w)).
Proof.
  intros Hc He. rewrite init_spec. unfold counts_agree, sum_counts. simpl.
  rewrite Hc, He. split; reflexivity.
Qed.

(** What [parse_input_file] does once the file is open. *)
Lemma parse_input_file_opened env filename content w :
  open_r env filename = Opened content ->
  parse_input_file env filename w =
    (classify (concat (fst (Csv.reader content)))
       {| cur_claim_data := length (heap w); cur_claim_type := None |} ;;;
     if snd (Csv.reader content) then raise CsvError else ret tt)
    (set_heap w (heap w ++ [[]])).
Proof.
  intros Ho. unfold parse_input_file. rewrite Ho.
  destruct (Csv.reader content) as [rows err]. simpl.
  unfold bind at 1. simpl. unfold bind.
  rewrite parse_rows_classify. reflexivity.
Qed.

Lemma parse_input_file_ok_inv env filename w w' :
  parse_input_file env filename w = (Ok tt, w') ->
  exists content l',
    open_r env filename = Opened content /\
    snd (Csv.reader content) = false /\
    classify (concat (fst (Csv.reader content)))
      {| cur_claim_data := length (heap w); cur_claim_type := None |}
      (set_heap w (heap w ++ [[]])) = (Ok l', w').
Proof.
  intros Hrun. destruct (open_r env filename) as [content|k] eqn:Ho.
  - rewrite (parse_input_file_opened _ _ _ _ Ho) in Hrun.
    apply bind_ok_inv in Hrun as (l' & w1 & Hc & Hend).
    exists content, l'. destruct (snd (Csv.reader content)); [discriminate|].
    unfold ret in Hend. simplify_eq. done.
  - unfold parse_input_file in Hrun. rewrite Ho in Hrun.
    destruct k; discriminate.
Qed.

(** ** C3 *)

(** C3. After [init] and a [parse_input_file] that completes, the counts
    of all claim types add up to the length of [claims]; when the
    segments of the input are well formed, this is also the number of
    claim-start/claim-end pairs of the input. *)
Theorem C3_counts_sum_to_claims env filename w0 w' :
  claims w0 = [] -> claim_counts w0 = ∅ ->
  (init ;;; parse_input_file env filename) w0 = (Ok tt, w') ->
  sum_counts w' = N.of_nat (length (claims w')) /\
  (forall content,
     open_r env filename = Opened content ->
     well_formed (segments_of content) = true ->
     sum_counts w' = N.of_nat (claim_pairs (segments_of content))).
Proof.
  intros Hc He Hrun.
  apply bind_ok_inv in Hrun as ([] & w1 & Hinit & Hparse).
  pose proof (init_counts_agree w0 Hc He) as Hagree. rewrite Hinit in Hagree.
  assert (claims w1 = []) as Hc1.
  { rewrite init_spec in Hinit. simplify_eq. done. }
  apply parse_input_file_ok_inv in Hparse as (content & l' & Ho & Herr & Hcl).
  apply classify_counts in Hcl as [[Hnone Hsum] Hlen]; [|exact Hagree].
  simpl in Hlen. rewrite Hc1 in Hlen. simpl in Hlen.
  split; [exact Hsum|].
  intros content' Ho' Hwf. rewrite Ho in Ho'. simplify_eq.
  rewrite Hsum, Hlen. f_equal.
  rewrite <- claim_ends_truthy. symmetry.
  exact (well_formed_pairs InHeader _ Hwf).
Qed.

Lemma C3_witness :
  let env := one_file "in.edi" two_claims in
  let w' := snd ((init ;;; parse_input_file env "in.edi") World0) in
  sum_counts w' = N.of_nat (length (claims w')) /\
  (forall content,
     open_r env "in.edi" = Opened content ->
     well_formed (segments_of content) = true ->
     sum_counts w' = N.of_nat (claim_pairs (segments_of content))).
Proof.
  intros env w'.
  apply (C3_counts_sum_to_claims env "in.edi" World0 w');
    [reflexivity | reflexivity | vm_compute; reflexivity].
Defined.

(** ** What one segment can change *)

Ltac step_cases s Hstep :=
  let Hk := fresh "Hk" in
  destruct (kind_of s) eqn:Hk;
  [ rewrite parse_segment_empty in Hstep by done
  | rewrite parse_segment_header in Hstep by done
  | rewrite parse_segment_footer in Hstep by done
  | rewrite parse_segment_claim_start in Hstep by done
  | rewrite parse_segment_claim_end in Hstep by done
  | rewrite parse_segment_claim_type in Hstep by done
  | rewrite parse_segment_claim_other in Hstep by done ].

Ltac split_lookups Hstep :=
  repeat match type of Hstep with
         | context [match ?x with _ => _ end] => destruct x eqn:?
         end.

(** Whatever the outcome: list objects are never freed, the claims list
    only grows, by claims over the current buffer, the buffer stays or
    is a new list object, and no file is written. *)
Lemma parse_segment_frame s l w r w' :
  parse_segment s l w = (r, w') ->
  length (heap w) <= length (heap w') /\
  (exists new, claims w' = claims w ++ new /\
               Forall (fun c => data c = cur_claim_data l) new) /\
  (forall l', r = Ok l' ->
     cur_claim_data l' = cur_claim_data l \/ cur_claim_data l' = length (heap w)) /\
  files w' = files w.
Proof.
  intros Hstep. step_cases s Hstep; split_lookups Hstep; simplify_eq; simpl;
    rewrite ?length_alter, ?length_app;
    (split; [simpl; lia|]);
    (split; [first [ by exists []; rewrite app_nil_r
                   | eexists [_]; split; [reflexivity|]; by repeat constructor ]|]);
    (split; [|reflexivity]); intros l' Hl'; simplify_eq; simpl; auto.
Qed.

(** A list object that is not the current buffer is in no claim added
    later, whatever the rest of the input. *)
Lemma classify_never_seals_other old segs l w r w' :
  old < length (heap w) -> cur_claim_data l <> old ->
  classify segs l w = (r, w') ->
  forall c, c ∈ claims w' -> data c = old -> c ∈ claims w.
Proof.
  revert l w. induction segs as [|s segs IH]; intros l w Hold Hcur Hrun c Hc Hd.
  - unfold classify in Hrun; simpl in Hrun. unfold ret in Hrun. by simplify_eq.
  - rewrite classify_cons in Hrun. unfold bind in Hrun.
    destruct (parse_segment s l w) as [r1 w1] eqn:Hstep.
    destruct (parse_segment_frame _ _ _ _ _ Hstep)
      as (Hlen & (new & Hnew & Hall) & Hbuf & _).
    assert (c ∈ claims w1 -> c ∈ claims w) as Hback.
    { rewrite Hnew, elem_of_app. intros [?|Hin]; [done|].
      rewrite Forall_forall in Hall. apply Hall in Hin. congruence. }
    destruct r1 as [l1|e|code]; simplify_eq; auto.
    apply Hback. eapply (IH l1 w1); eauto; [lia|].
    destruct (Hbuf l1 eq_refl) as [->| ->]; [done | lia].
Qed.

(** ** C5 *)

(** C5. A claim-start segment read while a claim buffer is open raises
    no error and makes a new list with only this segment the current
    buffer.  The claims list, the counts, the header and the footer stay
    as they are, and so does every list object there was.  The buffer
    that was open is in no claim that the rest of the input adds. *)
Theorem C5_claim_start_replaces_open_buffer segment l w :
  Py.startswith segment CLAIM_START_SEGMENT = true ->
  cur_claim_data l < length (heap w) ->
  exists l' w',
    parse_segment segment l w = (Ok l', w') /\
    deref w' (cur_claim_data l') = [segment] /\
    cur_claim_data l' <> cur_claim_data l /\
    cur_claim_type l' = cur_claim_type l /\
    claims w' = claims w /\ claim_counts w' = claim_counts w /\
    header w' = header w /\ footer w' = footer w /\
    (forall d, d < length (heap w) -> deref w' d = deref w d) /\
    (forall rest r w'' c,
       classify rest l' w' = (r, w'') ->
       c ∈ claims w'' -> data c = cur_claim_data l -> c ∈ claims w).
Proof.
  intros Hst Hopen. apply kind_of_claim_start in Hst.
  eexists _, _. split; [apply parse_segment_claim_start; exact Hst|].
  simpl. unfold deref. simpl.
  split; [by rewrite lookup_app_r, Nat.sub_diag by lia|].
  split; [lia|]. do 5 (split; [reflexivity|]).
  split; [intros d Hd; by rewrite lookup_app_l by lia|].
  intros rest r w'' c Hrun Hc Hd.
  eapply (classify_never_seals_other (cur_claim_data l)) in Hrun; eauto.
  - simpl. rewrite length_app. simpl. lia.
  - simpl. lia.
Qed.

Lemma C5_witness :
  let w := set_heap World0 [["ST*837*0001"; "NM1*41"]] in
  let l := {| cur_claim_data := 0; cur_claim_type := Some CE |} in
  exists l' w',
    parse_segment "ST*837*0002" l w = (Ok l', w') /\
    deref w' (cur_claim_data l') = ["ST*837*0002"] /\
    cur_claim_data l' <> cur_claim_data l /\
    cur_claim_type l' = cur_claim_type l /\
    claims w' = claims w /\ claim_counts w' = claim_counts w /\
    header w' = header w /\ footer w' = footer w /\
    (forall d, d < length (heap w) -> deref w' d = deref w d) /\
    (forall rest r w'' c,
       classify rest l' w' = (r, w'') ->
       c ∈ claims w'' -> data c = cur_claim_data l -> c ∈ claims w).
Proof.
  intros w l.
  apply (C5_claim_start_replaces_open_buffer "ST*837*0002" l w);
    [reflexivity | simpl; lia].
Defined.

(** ** The current claim type along the input *)

Lemma ClaimType_getitem_name name t :
  ClaimType_getitem name = Some t <-> ClaimType_name t = name.
Proof.
  unfold ClaimType_getitem, ClaimType_members.
  cbn [List.find ClaimType_name].
  destruct (String.eqb_spec "CE" name) as [<-|Hce].
  - split; [intros; by simplify_eq | by destruct t].
  - destruct (String.eqb_spec "CF" name) as [<-|Hcf].
    + split; [intros; by simplify_eq | by destruct t].
    + split; [done | by destruct t].
Qed.

(** Only the claim-type branch assigns [cur_claim_type]. *)
Lemma parse_segment_keeps_type s l w l' w' :
  kind_of s <> ClaimTypeSegment ->
  parse_segment s l w = (Ok l', w') ->
  cur_claim_type l' = cur_claim_type l.
Proof.
  intros Hk Hstep. step_cases s Hstep; split_lookups Hstep; by simplify_eq.
Qed.

Lemma classify_keeps_type segs l w l' w' :
  Forall (fun s => Py.startswith s CLAIM_TYPE_SEGMENT = false) segs ->
  classify segs l w = (Ok l', w') ->
  cur_claim_type l' = cur_claim_type l.
Proof.
  intros Hall. revert l w. induction Hall as [|s segs Hs _ IH]; intros l w Hrun.
  - unfold classify in Hrun; simpl in Hrun. unfold ret in Hrun. by simplify_eq.
  - rewrite classify_cons in Hrun.
    apply bind_ok_inv in Hrun as (l1 & w1 & Hstep & Hrest).
    rewrite (IH _ _ Hrest).
    eapply parse_segment_keeps_type; eauto using kind_of_not_claim_type.
Qed.

(** With no type resolved and [None] not a key of [claim_counts], input
    without BHT segments keeps both so, unless a claim-end segment in it
    raised the KeyError already. *)
Lemma classify_untyped segs l w :
  Forall (fun s => Py.startswith s CLAIM_TYPE_SEGMENT = false) segs ->
  cur_claim_type l = None -> claim_counts w !! None = None ->
  (exists l' w', classify segs l w = (Ok l', w') /\
                 cur_claim_type l' = None /\ claim_counts w' !! None = None) \/
  (exists w', classify segs l w = (Raise KeyError, w')).
Proof.
  intros Hall. revert l w. induction Hall as [|s segs Hs _ IH]; intros l w Ht Hn.
  - left. by exists l, w.
  - rewrite classify_cons. unfold bind.
    destruct (parse_segment s l w) as [r w1] eqn:Hstep.
    apply kind_of_not_claim_type in Hs.
    assert ((exists l1, r = Ok l1 /\ cur_claim_type l1 = None /\
                        claim_counts w1 !! None = None) \/ r = Raise KeyError)
      as [(l1 & -> & Ht1 & Hn1)| ->].
    { step_cases s Hstep; try done.
      all: try (left; simplify_eq; by eauto).
      rewrite Ht, Hn in Hstep. right. by simplify_eq. }
    + apply IH; assumption.
    + right. by exists w1.
Qed.

(** [None] never becomes a key of [claim_counts]: an item is only
    assigned under a key that was looked up first. *)
Lemma parse_segment_no_None_key s l w r w' :
  claim_counts w !! None = None ->
  parse_segment s l w = (r, w') ->
  claim_counts w' !! None = None.
Proof.
  intros Hn Hstep. step_cases s Hstep; split_lookups Hstep; simplify_eq; try done.
  simpl. rewrite lookup_insert_ne; [done | congruence].
Qed.

Lemma classify_no_None_key segs l w r w' :
  claim_counts w !! None = None ->
  classify segs l w = (r, w') ->
  claim_counts w' !! None = None.
Proof.
  revert l w. induction segs as [|s segs IH]; intros l w Hn Hrun.
  - unfold classify in Hrun; simpl in Hrun. unfold ret in Hrun. by simplify_eq.
  - rewrite classify_cons in Hrun. unfold bind in Hrun.
    destruct (parse_segment s l w) as [r1 w1] eqn:Hstep.
    pose proof (parse_segment_no_None_key _ _ _ _ _ Hn Hstep).
    destruct r1; simplify_eq; eauto.
Qed.

Lemma parse_input_file_no_None_key env filename w r w' :
  claim_counts w !! None = None ->
  parse_input_file env filename w = (r, w') ->
  claim_counts w' !! None = None.
Proof.
  intros Hn Hrun. destruct (open_r env filename) as [content|k] eqn:Ho.
  - rewrite (parse_input_file_opened _ _ _ _ Ho) in Hrun. unfold bind in Hrun.
    destruct (classify _ _ _) as [r1 w1] eqn:Hc.
    apply classify_no_None_key in Hc; [|exact Hn].
    destruct r1; [destruct (snd (Csv.reader content))|..];
      unfold raise, ret in Hrun; by simplify_eq.
  - unfold parse_input_file in Hrun. rewrite Ho in Hrun.
    destruct k; unfold handle_error, raise in Hrun; by simplify_eq.
Qed.

Lemma parse_input_file_raise env filename content w0 pre s rest l w e w1 :
  open_r env filename = Opened content ->
  concat (fst (Csv.reader content)) = pre ++ s :: rest ->
  classify pre {| cur_claim_data := length (heap w0); cur_claim_type := None |}
           (set_heap w0 (heap w0 ++ [[]])) = (Ok l, w) ->
  parse_segment s l w = (Raise e, w1) ->
  parse_input_file env filename w0 = (Raise e, w1).
Proof.
  intros Ho Hsegs Hpre Hstep.
  rewrite (parse_input_file_opened _ _ _ _ Ho), Hsegs.
  unfold bind at 1. rewrite classify_app. rewrite (bind_ok _ _ _ _ _ Hpre).
  rewrite classify_cons. rewrite (bind_raise _ _ _ _ _ Hstep). reflexivity.
Qed.

(** ** C6 *)

(** C6. A BHT segment is appended to the current buffer and split on
    ['*']; the first two characters of element 3 are looked up among the
    names of [ClaimType], by equality of names.  A member found becomes
    [cur_claim_type]; with no such member the lookup raises KeyError,
    and with no element 3 IndexError.  Either failure is a LookupError,
    and [parse_input_file] ends with it: nothing catches it. *)
Theorem C6_claim_type_lookup segment l w :
  Py.startswith segment CLAIM_TYPE_SEGMENT = true ->
  parse_segment segment l w =
    match Py.split segment "*" !! 3 with
    | Some type_element =>
        match ClaimType_getitem (Py.slice_to type_element 2) with
        | Some t =>
            (Ok {| cur_claim_data := cur_claim_data l; cur_claim_type := Some t |},
             appended w l segment)
        | None => (Raise KeyError, appended w l segment)
        end
    | None => (Raise IndexError, appended w l segment)
    end /\
  (forall name t, ClaimType_getitem name = Some t <-> ClaimType_name t = name) /\
  (forall e w1,
     parse_segment segment l w = (Raise e, w1) ->
     is_LookupError e = true /\
     forall env filename content w0 pre rest,
       open_r env filename = Opened content ->
       concat (fst (Csv.reader content)) = pre ++ segment :: rest ->
       classify pre {| cur_claim_data := length (heap w0); cur_claim_type := None |}
                (set_heap w0 (heap w0 ++ [[]])) = (Ok l, w) ->
       parse_input_file env filename w0 = (Raise e, w1)).
Proof.
  intros Hbht. apply kind_of_claim_type in Hbht.
  split; [by apply parse_segment_claim_type|].
  split; [apply ClaimType_getitem_name|].
  intros e w1 Hraise. split.
  - rewrite parse_segment_claim_type in Hraise by done.
    split_lookups Hraise; by simplify_eq.
  - intros. eapply parse_input_file_raise; eauto.
Qed.

Lemma C6_witness :
  let segment := "BHT*0019*00*CF0002*20220101*1201" in
  let l := {| cur_claim_data := 0; cur_claim_type := None |} in
  let w := set_heap World0 [["ST*837*0002"]] in
  parse_segment segment l w =
    (Ok {| cur_claim_data := 0; cur_claim_type := Some CF |},
     set_heap World0 [["ST*837*0002"; segment]]).
Proof.
  intros segment l w.
  exact (proj1 (C6_claim_type_lookup segment l w eq_refl)).
Defined.

(** ** C8 *)

(** C8. When the input has a claim-end segment with no BHT segment
    before it, [parse_input_file] raises KeyError: the count is looked
    up under [None], which is not a key of [claim_counts].  A claim-end
    segment is processed without error only with a resolved type. *)
Theorem C8_claim_end_before_type env filename content pre segment post w :
  open_r env filename = Opened content ->
  concat (fst (Csv.reader content)) = pre ++ segment :: post ->
  Forall (fun s => Py.startswith s CLAIM_TYPE_SEGMENT = false) pre ->
  Py.startswith segment CLAIM_END_SEGMENT = true ->
  claim_counts w !! None = None ->
  fst (parse_input_file env filename w) = Raise KeyError /\
  claim_counts (snd (parse_input_file env filename w)) !! None = None /\
  (forall l w1 l' w',
     claim_counts w1 !! None = None ->
     parse_segment segment l w1 = (Ok l', w') ->
     exists t, cur_claim_type l = Some t).
Proof.
  intros Ho Hsegs Hpre Hse Hnone. apply kind_of_claim_end in Hse.
  split; [|split].
  - rewrite (parse_input_file_opened _ _ _ _ Ho), Hsegs.
    unfold bind at 1. rewrite classify_app. unfold bind at 1.
    destruct (classify_untyped pre
                {| cur_claim_data := length (heap w); cur_claim_type := None |}
                (set_heap w (heap w ++ [[]])) Hpre eq_refl Hnone)
      as [(l1 & w1 & -> & Ht & Hn)|(w1 & ->)]; [|reflexivity].
    rewrite classify_cons. unfold bind at 1.
    rewrite parse_segment_claim_end, Ht, Hn by done. reflexivity.
  - destruct (parse_input_file env filename w) as [r w'] eqn:Hrun.
    eapply parse_input_file_no_None_key; eauto.
  - intros l w1 l' w' Hn Hstep.
    rewrite parse_segment_claim_end in Hstep by done.
    destruct (cur_claim_type l) as [t|]; [by exists t|].
    rewrite Hn in Hstep. discriminate.
Qed.

Lemma C8_witness :
  let env := one_file "in.edi" claim_end_first in
  let w := snd (init World0) in
  fst (parse_input_file env "in.edi" w) = Raise KeyError /\
  claim_counts (snd (parse_input_file env "in.edi" w)) !! None = None /\
  (forall l w1 l' w',
     claim_counts w1 !! None = None ->
     parse_segment "SE*2*0001" l w1 = (Ok l', w') ->
     exists t, cur_claim_type l = Some t).
Proof.
  intros env w.
  apply (C8_claim_end_before_type env "in.edi" claim_end_first
           ["ISA*00"; "GS*HC"; "ST*837*0001"] "SE*2*0001"
           ["GE*1*1"; "IEA*1"; EmptyString] w).
  - reflexivity.
  - vm_compute. reflexivity.
  - repeat constructor.
  - reflexivity.
  - vm_compute. reflexivity.
Defined.


(** ** A claim without a BHT segment *)

(** Plain claim segments go to the end of the current buffer. *)
Lemma classify_claim_other body l w :
  Forall (fun s => kind_of s = ClaimOther) body ->
  classify body l w =
    (Ok l, set_heap w (alter (fun d => d ++ body) (cur_claim_data l) (heap w))).
Proof.
  intros Hall. revert w. induction Hall as [|s body Hs _ IH]; intros w.
  - unfold classify; simpl. unfold ret. f_equal.
    destruct w; unfold set_heap; simpl. f_equal.
    symmetry. apply list_alter_id. intros d. apply app_nil_r.
  - rewrite classify_cons.
    rewrite (bind_ok _ _ _ _ _ (parse_segment_claim_other _ l w Hs)).
    rewrite IH. unfold appended, set_heap; simpl. do 2 f_equal.
    rewrite list_alter_alter_eq. apply list_alter_ext; [|done].
    intros d _. simpl. by rewrite <- app_assoc.
Qed.

(** ** C9 *)

(** C9. [cur_claim_type] is assigned by BHT segments only: neither a
    claim-start nor a claim-end segment resets it.  So a claim with no
    BHT segment of its own, read after a BHT segment that resolved the
    type [t] (and after any segments without BHT in between), is sealed
    with the type [t] and counted under [t]. *)
Theorem C9_claim_inherits_previous_type
    pre bht type_element t mid st body se l0 w0 l2 w2 n :
  Py.startswith bht CLAIM_TYPE_SEGMENT = true ->
  Py.split bht ELEMENT_DELIMITER !! CLAIM_TYPE_ELEMENT_NUM = Some type_element ->
  ClaimType_getitem (Py.slice_to type_element 2) = Some t ->
  Forall (fun s => Py.startswith s CLAIM_TYPE_SEGMENT = false) mid ->
  classify (pre ++ bht :: mid) l0 w0 = (Ok l2, w2) ->
  claim_counts w2 !! Some t = Some n ->
  Py.startswith st CLAIM_START_SEGMENT = true ->
  Forall (fun s => kind_of s = ClaimOther) body ->
  Py.startswith se CLAIM_END_SEGMENT = true ->
  (forall s l w l' w',
     Py.startswith s CLAIM_TYPE_SEGMENT = false ->
     parse_segment s l w = (Ok l', w') ->
     cur_claim_type l' = cur_claim_type l) /\
  exists l3 w3,
    classify ((pre ++ bht :: mid) ++ st :: body ++ [se]) l0 w0 = (Ok l3, w3) /\
    cur_claim_type l3 = Some t /\
    claims w3 = claims w2 ++ [{| claim_type := Some t; data := length (heap w2) |}] /\
    deref w3 (length (heap w2)) = st :: body ++ [se] /\
    claim_counts w3 = <[Some t := (n + 1)%N]> (claim_counts w2).
Proof.
  intros Hbht Hel Hty Hmid Hrun Hn Hst Hbody Hse.
  split.
  { intros s l w l' w' Hs. apply parse_segment_keeps_type.
    by apply kind_of_not_claim_type. }
  assert (cur_claim_type l2 = Some t) as Ht2.
  { rewrite classify_app in Hrun.
    apply bind_ok_inv in Hrun as (l1 & w1 & _ & Hrun).
    rewrite classify_cons in Hrun.
    apply bind_ok_inv in Hrun as (lb & wb & Hstep & Hrun).
    rewrite (classify_keeps_type _ _ _ _ _ Hmid Hrun).
    rewrite parse_segment_claim_type in Hstep by by apply kind_of_claim_type.
    rewrite Hel, Hty in Hstep. by simplify_eq. }
  apply kind_of_claim_start in Hst. apply kind_of_claim_end in Hse.
  eexists _, _. split.
  { rewrite classify_app, (bind_ok _ _ _ _ _ Hrun).
    rewrite classify_cons, (bind_ok _ _ _ _ _ (parse_segment_claim_start _ _ _ Hst)).
    rewrite classify_app, (bind_ok _ _ _ _ _ (classify_claim_other _ _ _ Hbody)).
    rewrite classify_cons. unfold bind.
    rewrite parse_segment_claim_end by done. simpl. rewrite Ht2, Hn.
    unfold classify; simpl. unfold ret. reflexivity. }
  simpl. rewrite ?Ht2. split; [reflexivity|]. split; [reflexivity|].
  split; [|reflexivity].
  unfold deref. simpl. rewrite list_alter_alter_eq.
  rewrite list_lookup_alter_eq.
  by rewrite lookup_app_r, Nat.sub_diag by lia.
Qed.

Lemma C9_witness :
  let l0 := {| cur_claim_data := 0; cur_claim_type := None |} in
  let w0 := set_heap (snd (init World0)) [[]] in
  exists l3 w3,
    classify inherited_type_input l0 w0 = (Ok l3, w3) /\
    cur_claim_type l3 = Some CE /\
    claims w3 = [{| claim_type := Some CE; data := 1 |};
                 {| claim_type := Some CE; data := 2 |}] /\
    deref w3 2 = ["ST*837*0002"; "NM1*41"; "SE*3*0002"] /\
    claim_counts w3 = <[Some CE := 2%N]> (claim_counts (snd (init World0))).
Proof.
  intros l0 w0.
  destruct (C9_claim_inherits_previous_type
              ["ST*837*0001"] "BHT*0019*00*CE0001" "CE0001" CE ["SE*3*0001"]
              "ST*837*0002" ["NM1*41"] "SE*3*0002" l0 w0
              {| cur_claim_data := 1; cur_claim_type := Some CE |}
              (snd (classify ["ST*837*0001"; "BHT*0019*00*CE0001"; "SE*3*0001"] l0 w0))
              1%N) as [_ H].
  all: first [ exact H | reflexivity | vm_compute; reflexivity
             | repeat constructor; done ].
Defined.

(** ** The buffer when a claim is sealed *)

Lemma kind_of_claim_start_inv s :
  kind_of s = ClaimStart -> Py.startswith s CLAIM_START_SEGMENT = true.
Proof.
  unfold kind_of.
  repeat match goal with |- context [if ?b then _ else _] => destruct b eqn:? end;
    done.
Qed.

(** The current buffer is a list object of the heap. *)
Lemma parse_segment_buffer_valid s l w l' w' :
  cur_claim_data l < length (heap w) ->
  parse_segment s l w = (Ok l', w') ->
  cur_claim_data l' < length (heap w').
Proof.
  intros Hv Hstep. step_cases s Hstep; split_lookups Hstep; simplify_eq; simpl;
    rewrite ?length_alter, ?length_app; simpl; lia.
Qed.

Lemma parse_segment_buffer_started s l w l' w' :
  Py.startswith s CLAIM_START_SEGMENT = true \/ buffer_started l w ->
  parse_segment s l w = (Ok l', w') ->
  buffer_started l' w'.
Proof.
  intros Hpre Hstep. unfold buffer_started in *.
  destruct (decide (kind_of s = ClaimStart)) as [Hk|Hk].
  - rewrite parse_segment_claim_start in Hstep by done. simplify_eq. simpl.
    exists s, []. split; [by rewrite lookup_app_r, Nat.sub_diag by lia|].
    by apply kind_of_claim_start_inv.
  - destruct Hpre as [Hs|(first & rest & Hl & Hf)];
      [by apply kind_of_claim_start in Hs|].
    step_cases s Hstep; split_lookups Hstep; simplify_eq; simpl;
      first [ by exists first, rest
            | exists first, (rest ++ [s]); split; [|done];
              rewrite list_lookup_alter_eq, Hl; reflexivity ].
Qed.

Lemma classify_buffer_valid segs l w l' w' :
  cur_claim_data l < length (heap w) ->
  classify segs l w = (Ok l', w') ->
  cur_claim_data l' < length (heap w').
Proof.
  revert l w. induction segs as [|s segs IH]; intros l w Hv Hrun.
  - unfold classify in Hrun; simpl in Hrun. unfold ret in Hrun. by simplify_eq.
  - rewrite classify_cons in Hrun.
    apply bind_ok_inv in Hrun as (l1 & w1 & Hstep & Hrest).
    eauto using parse_segment_buffer_valid.
Qed.

Lemma classify_buffer_started segs l w l' w' :
  Exists (fun s => Py.startswith s CLAIM_START_SEGMENT = true) segs \/
    buffer_started l w ->
  classify segs l w = (Ok l', w') ->
  buffer_started l' w'.
Proof.
  revert l w. induction segs as [|s segs IH]; intros l w Hpre Hrun.
  - unfold classify in Hrun; simpl in Hrun. unfold ret in Hrun. simplify_eq.
    destruct Hpre as [Hex|?]; [by apply Exists_nil in Hex | done].
  - rewrite classify_cons in Hrun.
    apply bind_ok_inv in Hrun as (l1 & w1 & Hstep & Hrest).
    refine (IH l1 w1 _ Hrest).
    destruct Hpre as [Hex|Hb].
    + apply Exists_cons in Hex as [Hs|Hex]; [right|by left].
      eapply parse_segment_buffer_started; eauto.
    + right. eapply parse_segment_buffer_started; eauto.
Qed.

(** ** C4 *)

(** C4, as stated, fails: a claim-end segment seals whatever the buffer
    holds.  For an input that has a BHT and an SE segment but no ST
    segment, [parse_input_file] completes and the one claim it appended
    starts with the BHT segment. *)
Lemma C4_counterexample :
  let env := one_file "in.edi" claim_end_unopened in
  let run := parse_input_file env "in.edi" (snd (init World0)) in
  fst run = Ok tt /\
  claims (snd run) = [{| claim_type := Some CE; data := 0 |}] /\
  deref (snd run) 0 = ["BHT*0019*00*CE0001"; "SE*2*0001"] /\
  ~ Forall (fun c => starts_and_ends (deref (snd run) (data c))) (claims (snd run)).
Proof.
  intros env run.
  assert (claims (snd run) = [{| claim_type := Some CE; data := 0 |}]) as Hc
    by (vm_compute; reflexivity).
  assert (deref (snd run) 0 = ["BHT*0019*00*CE0001"; "SE*2*0001"]) as Hd
    by (vm_compute; reflexivity).
  split; [vm_compute; reflexivity|]. split; [exact Hc|]. split; [exact Hd|].
  rewrite Hc. intros Hall. apply Forall_cons in Hall as [Hse _].
  cbn [data] in Hse. rewrite Hd in Hse.
  destruct Hse as (first & last_segment & Hf & Hst & _).
  cbn [head] in Hf. injection Hf as <-. vm_compute in Hst. discriminate.
Qed.

(** C4, amended.  When a claim-end segment is read, a claim over the
    current buffer is appended to [claims], whether or not the count
    lookup that follows raises; at that moment its data is not empty and
    ends with the claim-end segment.  The data starts with a claim-start
    segment when one was read before: the classifier does not check
    that a claim was opened. *)
Theorem C4_sealed_claim_data pre segment l0 w0 l1 w1 r w2 :
  cur_claim_data l0 < length (heap w0) ->
  classify pre l0 w0 = (Ok l1, w1) ->
  Py.startswith segment CLAIM_END_SEGMENT = true ->
  parse_segment segment l1 w1 = (r, w2) ->
  exists c,
    claims w2 = claims w1 ++ [c] /\
    deref w2 (data c) <> [] /\
    last (deref w2 (data c)) = Some segment /\
    (Exists (fun s => Py.startswith s CLAIM_START_SEGMENT = true) pre ->
     exists first,
       head (deref w2 (data c)) = Some first /\
       Py.startswith first CLAIM_START_SEGMENT = true).
Proof.
  intros Hv Hpre Hse Hstep. apply kind_of_claim_end in Hse.
  pose proof (classify_buffer_valid _ _ _ _ _ Hv Hpre) as Hv1.
  destruct (lookup_lt_is_Some_2 _ _ Hv1) as [d Hd].
  exists {| claim_type := cur_claim_type l1; data := cur_claim_data l1 |}.
  assert (claims w2 = claims w1 ++
            [{| claim_type := cur_claim_type l1; data := cur_claim_data l1 |}] /\
          heap w2 = alter (fun d => d ++ [segment]) (cur_claim_data l1) (heap w1))
    as [Hc Hh].
  { rewrite parse_segment_claim_end in Hstep by done.
    split_lookups Hstep; by simplify_eq. }
  assert (deref w2 (cur_claim_data l1) = d ++ [segment]) as Hderef.
  { unfold deref. by rewrite Hh, list_lookup_alter_eq, Hd. }
  simpl. rewrite Hderef.
  split; [exact Hc|]. split; [by destruct d|].
  split; [apply last_snoc|].
  intros Hex.
  destruct (classify_buffer_started pre l0 w0 l1 w1 (or_introl Hex) Hpre)
    as (first & rest & Hl & Hst).
  exists first. rewrite Hl in Hd. by simplify_eq.
Qed.

Lemma C4_witness :
  let l0 := {| cur_claim_data := 0; cur_claim_type := None |} in
  let w0 := set_heap (snd (init World0)) [[]] in
  let pre := ["ST*837*0001"; "BHT*0019*00*CE0001"] in
  let mid := classify pre l0 w0 in
  let l1 := {| cur_claim_data := 1; cur_claim_type := Some CE |} in
  exists c,
    claims (snd (parse_segment "SE*3*0001" l1 (snd mid))) = claims (snd mid) ++ [c] /\
    deref (snd (parse_segment "SE*3*0001" l1 (snd mid))) (data c) <> [] /\
    last (deref (snd (parse_segment "SE*3*0001" l1 (snd mid))) (data c))
      = Some "SE*3*0001" /\
    (Exists (fun s => Py.startswith s CLAIM_START_SEGMENT = true) pre ->
     exists first,
       head (deref (snd (parse_segment "SE*3*0001" l1 (snd mid))) (data c)) = Some first /\
       Py.startswith first CLAIM_START_SEGMENT = true).
Proof.
  intros l0 w0 pre mid l1.
  apply (C4_sealed_claim_data pre "SE*3*0001" l0 w0 l1 (snd mid)
           (fst (parse_segment "SE*3*0001" l1 (snd mid)))).
  - simpl. lia.
  - vm_compute. reflexivity.
  - reflexivity.
  - vm_compute. reflexivity.
Defined.

(** The list object of a sealed claim stays the current buffer: a
    segment read after the claim-end segment, before the next
    claim-start segment, is appended to the data of the sealed claim. *)
Example sealed_claim_data_grows :
  let w := snd (classify ["ST*837*0001"; "BHT*0019*00*CE0001"; "SE*3*0001"; "NM1*41"]
                  {| cur_claim_data := 0; cur_claim_type := None |}
                  (set_heap (snd (init World0)) [[]])) in
  claims w = [{| claim_type := Some CE; data := 1 |}] /\
  deref w 1 = ["ST*837*0001"; "BHT*0019*00*CE0001"; "SE*3*0001"; "NM1*41"].
Proof. vm_compute. split; reflexivity. Qed.

(** ** Opening the input file *)

Lemma require_arg_truthy a w :
  Py.truthy a = true -> require_arg (Some a) w = (Ok a, w).
Proof. intros H. unfold require_arg. rewrite H. reflexivity. Qed.

Lemma parse_input_file_open_fails env filename k w :
  open_r env filename = OpenFails k ->
  parse_input_file env filename w =
    match k with
    | FileNotFoundError | PermissionError =>
        (Exit (ErrorCode_value ERR_CANT_READ_FILE), w)
    | _ => (Raise (OSError k), w)
    end.
Proof.
  intros Ho. unfold parse_input_file. rewrite Ho. by destruct k.
Qed.

(** ** C7 *)

(** C7, as stated, fails: only two of the errors of [open] are handled.
    For a path that is a directory [open] raises IsADirectoryError,
    which leaves [parse_input_file] and [verify] as an exception; the
    run then ends in [cli()] with the exit status 255 of milc, not with
    ERR_CANT_READ_FILE (3). *)
Lemma C7_counterexample :
  let env := unreadable IsADirectoryError in
  let w := snd (init World0) in
  open_r env "claims" = OpenFails IsADirectoryError /\
  parse_input_file env "claims" w = (Raise (OSError IsADirectoryError), w) /\
  run env (VerifyCmd (Some "claims")) World0 = (Exit 255, w) /\
  parse_input_file env "claims" w <> (Exit 3, w).
Proof.
  intros env w. split; [reflexivity|]. split; [reflexivity|].
  split; [vm_compute; reflexivity|]. discriminate.
Qed.

(** C7, amended.  When [open] fails with FileNotFoundError or with
    PermissionError, [parse_input_file] ends the run with the exit
    code of ERR_CANT_READ_FILE, which is 3, and leaves the program
    state as it was; so do the two subcommands, right after [init].
    Any other error of [open] leaves [parse_input_file] as an
    exception; whatever the error, the state is not changed. *)
Theorem C7_unreadable_input env filename k w :
  open_r env filename = OpenFails k ->
  k = FileNotFoundError \/ k = PermissionError ->
  parse_input_file env filename w = (Exit 3, w) /\
  ErrorCode_value ERR_CANT_READ_FILE = 3%N /\
  (Py.truthy filename = true ->
   run env (VerifyCmd (Some filename)) w = (Exit 3, snd (init w)) /\
   forall output_dir,
     Py.truthy output_dir = true ->
     run env (SplitCmd (Some filename) (Some output_dir)) w
       = (Exit 3, snd (init w))) /\
  (forall k' filename' w',
     open_r env filename' = OpenFails k' ->
     snd (parse_input_file env filename' w') = w' /\
     (k' <> FileNotFoundError -> k' <> PermissionError ->
      fst (parse_input_file env filename' w') = Raise (OSError k'))).
Proof.
  intros Ho Hk.
  assert (forall w, parse_input_file env filename w = (Exit 3, w)) as Hp.
  { intros w1. rewrite (parse_input_file_open_fails _ _ _ _ Ho).
    by destruct Hk as [-> | ->]. }
  split; [apply Hp|]. split; [reflexivity|]. split.
  - intros Hf. split.
    + rewrite run_dispatch. unfold dispatch, verify.
      unfold bind. rewrite (require_arg_truthy _ _ Hf), Hp. reflexivity.
    + intros output_dir Hd.
      rewrite run_dispatch. unfold dispatch, split.
      unfold bind at 1. rewrite (require_arg_truthy _ _ Hf).
      unfold bind at 1. rewrite (require_arg_truthy _ _ Hd).
      unfold bind at 1. rewrite Hp. reflexivity.
  - intros k' filename' w' Ho'.
    rewrite (parse_input_file_open_fails _ _ _ _ Ho'). by destruct k'.
Qed.

Lemma C7_witness :
  let env := unreadable PermissionError in
  let w := snd (init World0) in
  parse_input_file env "claims.edi" w = (Exit 3, w) /\
  ErrorCode_value ERR_CANT_READ_FILE = 3%N /\
  (Py.truthy "claims.edi" = true ->
   run env (VerifyCmd (Some "claims.edi")) w = (Exit 3, snd (init w)) /\
   forall output_dir,
     Py.truthy output_dir = true ->
     run env (SplitCmd (Some "claims.edi") (Some output_dir)) w
       = (Exit 3, snd (init w))) /\
  (forall k' filename' w',
     open_r env filename' = OpenFails k' ->
     snd (parse_input_file env filename' w') = w' /\
     (k' <> FileNotFoundError -> k' <> PermissionError ->
      fst (parse_input_file env filename' w') = Raise (OSError k'))).
Proof.
  intros env w.
  apply (C7_unreadable_input env "claims.edi" PermissionError w);
    [reflexivity | right; reflexivity].
Defined.

(** ** Parsing writes no file *)

Lemma classify_files segs l w r w' :
  classify segs l w = (r, w') -> files w' = files w.
Proof.
  revert l w. induction segs as [|s segs IH]; intros l w Hrun.
  - unfold classify in Hrun; simpl in Hrun. unfold ret in Hrun. by simplify_eq.
  - rewrite classify_cons in Hrun. unfold bind in Hrun.
    destruct (parse_segment s l w) as [r1 w1] eqn:Hstep.
    destruct (parse_segment_frame _ _ _ _ _ Hstep) as (_ & _ & _ & Hf).
    destruct r1; simplify_eq; [|done..].
    rewrite <- Hf. eauto.
Qed.

Lemma parse_input_file_files env filename w r w' :
  parse_input_file env filename w = (r, w') -> files w' = files w.
Proof.
  intros Hrun. destruct (open_r env filename) as [content|k] eqn:Ho.
  - rewrite (parse_input_file_opened _ _ _ _ Ho) in Hrun. unfold bind in Hrun.
    destruct (classify _ _ _) as [r1 w1] eqn:Hc.
    apply classify_files in Hc.
    destruct r1; [destruct (snd (Csv.reader content))|..];
      unfold raise, ret in Hrun; by simplify_eq.
  - rewrite (parse_input_file_open_fails _ _ _ _ Ho) in Hrun.
    destruct k; by simplify_eq.
Qed.

(** ** C10 *)

(** C10, as stated, fails: [str.index] is reached only after the
    arguments were checked, the file was parsed and the three sections
    were found.  For a path without a period that cannot be read,
    [split] exits with ERR_CANT_READ_FILE. *)
Lemma C10_counterexample :
  let env := unreadable FileNotFoundError in
  let w := snd (init World0) in
  Py.index (os_path_basename env "data/claims") "." = None /\
  split env (Some "data/claims") (Some "out") w
    = (Exit (ErrorCode_value ERR_CANT_READ_FILE), w) /\
  split env (Some "data/claims") (Some "out") w <> (Raise ValueError, w).
Proof.
  intros env w. split; [reflexivity|]. split; [reflexivity|]. discriminate.
Qed.

(** C10, amended.  For an input path whose base name has no period,
    [split] writes no output file, whatever happens.  With both
    arguments given it ends as [parse_input_file] does when that does
    not return, with the exit code of the first missing section
    otherwise, and when header, footer and claims are all there it
    raises the ValueError of [str.index]; nothing in [split] catches
    it, and the run ends in [cli()] with the exit status 255 of milc,
    which is none of the error codes of the program. *)
Theorem C10_basename_without_period env input_file output_dir w :
  Py.index (os_path_basename env input_file) "." = None ->
  Py.truthy input_file = true ->
  Py.truthy output_dir = true ->
  split env (Some input_file) (Some output_dir) w =
    match parse_input_file env input_file w with
    | (Ok _, w') =>
        if bool_decide (header w' = []) then
          (Exit (ErrorCode_value ERR_HEADER_NOT_FOUND), w')
        else if bool_decide (footer w' = []) then
          (Exit (ErrorCode_value ERR_FOOTER_NOT_FOUND), w')
        else if bool_decide (claims w' = []) then
          (Exit (ErrorCode_value ERR_CLAIM_DATA_NOT_FOUND), w')
        else (Raise ValueError, w')
    | (Raise e, w') => (Raise e, w')
    | (Exit code, w') => (Exit code, w')
    end /\
  files (snd (split env (Some input_file) (Some output_dir) w)) = files w /\
  (fst (split env (Some input_file) (Some output_dir) (snd (init w)))
     = Raise ValueError ->
   fst (run env (SplitCmd (Some input_file) (Some output_dir)) w)
     = Exit 255 /\
   forall error_code,
     fst (run env (SplitCmd (Some input_file) (Some output_dir)) w)
       <> Exit (ErrorCode_value error_code)).
Proof.
  intros Hidx Hf Hd.
  assert (split env (Some input_file) (Some output_dir) w =
    match parse_input_file env input_file w with
    | (Ok _, w') =>
        if bool_decide (header w' = []) then
          (Exit (ErrorCode_value ERR_HEADER_NOT_FOUND), w')
        else if bool_decide (footer w' = []) then
          (Exit (ErrorCode_value ERR_FOOTER_NOT_FOUND), w')
        else if bool_decide (claims w' = []) then
          (Exit (ErrorCode_value ERR_CLAIM_DATA_NOT_FOUND), w')
        else (Raise ValueError, w')
    | (Raise e, w') => (Raise e, w')
    | (Exit code, w') => (Exit code, w')
    end) as Hsplit.
  { unfold split.
    unfold bind at 1. rewrite (require_arg_truthy _ _ Hf).
    unfold bind at 1. rewrite (require_arg_truthy _ _ Hd).
    unfold bind at 1.
    destruct (parse_input_file env input_file w) as [[[]|e|code] w']; try done.
    unfold bind, get_world, handle_error, ret. rewrite Hidx.
    repeat case_bool_decide; reflexivity. }
  split; [exact Hsplit|]. split.
  - rewrite Hsplit.
    destruct (parse_input_file env input_file w) as [r w'] eqn:Hp.
    apply parse_input_file_files in Hp.
    destruct r; repeat case_bool_decide; done.
  - intros Hraise. rewrite run_dispatch. cbn [dispatch].
    destruct (split env (Some input_file) (Some output_dir) (snd (init w)))
      as [r w'].
    cbn [fst] in Hraise. subst r. cbn [fst].
    split; [reflexivity|]. by intros [].
Qed.

Lemma C10_witness :
  let env := one_file "data/claims" two_claims in
  split env (Some "data/claims") (Some "out") (snd (init World0))
    = (Raise ValueError,
       snd (parse_input_file env "data/claims" (snd (init World0)))) /\
  files (snd (split env (Some "data/claims") (Some "out") (snd (init World0)))) = ∅ /\
  fst (run env (SplitCmd (Some "data/claims") (Some "out")) World0) = Exit 255.
Proof.
  intros env.
  destruct (C10_basename_without_period env "data/claims" "out" (snd (init World0)))
    as (Hsplit & Hfiles & _); [reflexivity..|].
  destruct (C10_basename_without_period env "data/claims" "out" World0)
    as (_ & _ & Hrun); [reflexivity..|].
  split; [|split; [exact Hfiles|]].
  - rewrite Hsplit. vm_compute. reflexivity.
  - apply Hrun. rewrite Hsplit. vm_compute. reflexivity.
Defined.

(** ** The output file *)

Lemma string_app_nil_r s : s +:+ EmptyString = s.
Proof.
  induction s as [|c s IH]; [reflexivity|].
  change (String c (s +:+ EmptyString) = String c s). by rewrite IH.
Qed.

Lemma string_app_assoc s1 s2 s3 : (s1 +:+ s2) +:+ s3 = s1 +:+ (s2 +:+ s3).
Proof.
  induction s1 as [|c s1 IH]; [reflexivity|].
  change (String c ((s1 +:+ s2) +:+ s3) = String c (s1 +:+ (s2 +:+ s3))).
  by rewrite IH.
Qed.

Section writing.
Variables (fn : string) (t : ClaimType) (w : World) (F : gmap string string).

Lemma fh_write_writing c s :
  fh_write fn s (writing fn w F c) = (Ok tt, writing fn w F (c +:+ s)).
Proof.
  unfold fh_write, writing. simpl. by rewrite alter_insert_eq.
Qed.

Lemma write_claims_writing cs c :
  for_each cs (write_claim_data fn t) (writing fn w F c)
  = (Ok tt, writing fn w F (c +:+ claims_text w t cs)).
Proof.
  revert c. induction cs as [|x cs IH]; intros c; simpl.
  - by rewrite string_app_nil_r.
  - unfold bind at 1. unfold write_claim_data at 1.
    destruct (decide (claim_type x = Some t)).
    + unfold bind at 1. rewrite fh_write_writing.
      unfold bind at 1, get_world at 1. rewrite fh_write_writing, IH.
      by rewrite !string_app_assoc.
    + unfold ret at 1. by rewrite IH.
Qed.

Lemma write_footer_writing n segments c :
  claim_counts w !! Some t = Some n ->
  Forall (fun segment => Py.startswith segment "GE" = true ->
                         1 < length (Py.split segment "*")) segments ->
  for_each segments (write_footer_segment fn t) (writing fn w F c)
  = (Ok tt, writing fn w F (c +:+ footer_text n segments)).
Proof.
  intros Hn Hall. revert c.
  induction Hall as [|segment segments Hseg _ IH]; intros c; simpl.
  - by rewrite string_app_nil_r.
  - unfold bind at 1. unfold write_footer_segment at 1.
    unfold bind at 1. rewrite fh_write_writing.
    unfold footer_segment_text, FOOTER_CLAIM_COUNT_SEGMENT.
    destruct (Py.startswith segment "GE") eqn:Hge.
    + unfold bind at 1 2, counts_getitem at 1. simpl. rewrite Hn.
      unfold list_setitem, CLAIM_COUNT_ELEMENT_NUM, ELEMENT_DELIMITER.
      rewrite decide_True by auto.
      unfold ret at 1. rewrite fh_write_writing, IH.
      by rewrite !string_app_assoc.
    + unfold bind at 1, ret at 1. rewrite fh_write_writing, IH.
      by rewrite !string_app_assoc.
Qed.

End writing.

(** ** C1 *)

(** C1, as stated, fails: a footer segment with the prefix GE need not
    have an element 1.  For the registry parsed from an input whose GE
    segment has no ['*'], [claim_counts[CE]] is 1, the file is opened,
    the header, the claim and one delimiter are written, and the
    assignment to element 1 raises IndexError: the file is not the
    content C1 describes. *)
Lemma C1_counterexample :
  let env := one_file "in.edi" footer_without_count in
  let w := snd (parse_input_file env "in.edi" (snd (init World0))) in
  let run := write_output_file env "out" CE "in" ".edi" w in
  fst (parse_input_file env "in.edi" (snd (init World0))) = Ok tt /\
  footer w = ["GE"; "IEA*1"] /\
  claim_counts w !! Some CE = Some 1%N /\
  fst run = Raise IndexError /\
  files (snd run) !! "out/in_CE.edi"
    = Some "ISA*00~GS*HC~ST*837*0001~BHT*0019*00*CE0001~SE*3*0001~" /\
  files (snd run) !! "out/in_CE.edi" <> Some (expected_output w CE 1).
Proof.
  intros env w run.
  assert (files (snd run) !! "out/in_CE.edi"
          = Some "ISA*00~GS*HC~ST*837*0001~BHT*0019*00*CE0001~SE*3*0001~") as Hf
    by (vm_compute; reflexivity).
  repeat (split; [vm_compute; reflexivity|]).
  rewrite Hf. vm_compute. discriminate.
Qed.

(** C1, amended.  For a registry in which [claim_counts] has the claim
    type, an output path that can be opened, and a footer whose GE
    segments all have an element 1: [write_output_file] returns; with a
    count of 0 it changes nothing, and with a positive count the one
    file it writes holds the header segments joined by ['~'], then
    ['~'] and the segments of each claim of the type joined by ['~'],
    in list order, then ['~'] and each footer segment, a GE segment
    with its element 1 replaced by the decimal count. *)
Theorem C1_write_output_file env output_dir t prefix suffix w n :
  claim_counts w !! Some t = Some n ->
  open_w env (output_filename env output_dir t prefix suffix) = None ->
  Forall (fun segment => Py.startswith segment "GE" = true ->
                         1 < length (Py.split segment "*")) (footer w) ->
  write_output_file env output_dir t prefix suffix w =
    (Ok tt,
     if (0 <? n)%N
     then set_files w (<[output_filename env output_dir t prefix suffix
                         := expected_output w t n]> (files w))
     else w).
Proof.
  intros Hn Ho Hfooter. unfold write_output_file.
  unfold bind at 1, counts_getitem at 1. rewrite Hn.
  destruct (N.eqb_spec n 0) as [->|Hpos]; simpl; [reflexivity|].
  fold (output_filename env output_dir t prefix suffix). rewrite Ho.
  replace (0 <? n)%N with true by (symmetry; apply N.ltb_lt; lia).
  unfold bind at 1, fh_open at 1.
  fold (writing (output_filename env output_dir t prefix suffix) w (files w) EmptyString).
  unfold bind at 1, get_world at 1. cbn [header claims footer writing set_files].
  fold (writing (output_filename env output_dir t prefix suffix) w (files w) EmptyString).
  unfold bind at 1. rewrite fh_write_writing.
  unfold bind at 1. rewrite write_claims_writing.
  rewrite (write_footer_writing _ _ _ _ n) by assumption.
  unfold expected_output. by rewrite !string_app_assoc.
Qed.

Lemma C1_witness :
  let env := one_file "in.edi" two_claims in
  let w := snd (parse_input_file env "in.edi" (snd (init World0))) in
  write_output_file env "out" CF "in" ".edi" w =
    (Ok tt,
     set_files w (<["out/in_CF.edi" :=
       "ISA*00~GS*HC~ST*837*0002~BHT*0019*00*CF0002*20220101*1201~SE*3*0002~GE*1*1~IEA*1"]>
       (files w))).
Proof.
  intros env w.
  rewrite (C1_write_output_file env "out" CF "in" ".edi" w 1%N).
  - vm_compute. reflexivity.
  - vm_compute. reflexivity.
  - reflexivity.
  - vm_compute. repeat constructor; intros; try discriminate; vm_compute; lia.
Defined.

(** ** The tokenization stage *)

Lemma fragments_cons sep s : exists f fs, Py.fragments sep s = f :: fs.
Proof.
  induction s as [|c s (f & fs & IH)]; simpl; [by eauto|].
  destruct (sep c); [by eauto|]. rewrite IH. by eauto.
Qed.

Lemma fragments_end sep c s :
  sep c = true -> Py.fragments sep (String c s) = EmptyString :: Py.fragments sep s.
Proof. intros H. simpl. by rewrite H. Qed.

Lemma fragments_char sep c s :
  sep c = false ->
  Py.fragments sep (String c s) = prepend (String c EmptyString) (Py.fragments sep s).
Proof.
  intros H. simpl. rewrite H.
  destruct (fragments_cons sep s) as (f & fs & ->). reflexivity.
Qed.

Lemma prepend_prepend a b pieces :
  prepend a (prepend b pieces) = prepend (a +:+ b) pieces.
Proof.
  destruct pieces as [|f fs]; simpl; [reflexivity|].
  by rewrite string_app_assoc.
Qed.

Lemma nonempty_cons_empty l : nonempty (EmptyString :: l) = nonempty l.
Proof. reflexivity. Qed.

Lemma nonempty_app l1 l2 : nonempty (l1 ++ l2) = nonempty l1 ++ nonempty l2.
Proof. apply filter_app. Qed.

(** *** Universal newlines *)

Lemma universal_newlines_cons c s :
  Csv.universal_newlines (String c s) =
    if Ascii.eqb c Csv.CR then
      match s with
      | String c' _ =>
          if Ascii.eqb c' Csv.LF then Csv.universal_newlines s
          else String Csv.LF (Csv.universal_newlines s)
      | EmptyString => String Csv.LF EmptyString
      end
    else String c (Csv.universal_newlines s).
Proof. reflexivity. Qed.

Lemma universal_newlines_occurs x s :
  x <> Csv.LF -> occurs x s = false ->
  occurs x (Csv.universal_newlines s) = false.
Proof.
  intros Hx. induction s as [|c s IH]; [done|].
  intros Hocc. cbn [occurs] in Hocc. apply orb_false_iff in Hocc as [Hc Hs].
  rewrite universal_newlines_cons.
  assert (Ascii.eqb Csv.LF x = false) as Hlf
    by (apply Ascii.eqb_neq; congruence).
  destruct (Ascii.eqb c Csv.CR).
  - destruct s as [|c' s']; [cbn [occurs]; by rewrite Hlf|].
    destruct (Ascii.eqb c' Csv.LF); [by apply IH|].
    cbn [occurs]. rewrite Hlf. by apply IH.
  - cbn [occurs]. rewrite Hc. by apply IH.
Qed.

Lemma universal_newlines_no_CR s :
  occurs Csv.CR (Csv.universal_newlines s) = false.
Proof.
  induction s as [|c s IH]; [done|].
  rewrite universal_newlines_cons.
  destruct (Ascii.eqb c Csv.CR) eqn:Hc.
  - destruct s as [|c' s']; [reflexivity|].
    destruct (Ascii.eqb c' Csv.LF); [exact IH|].
    cbn [occurs]. by rewrite IH.
  - cbn [occurs]. by rewrite Hc, IH.
Qed.

(** Reading CR LF and CR as LF changes empty pieces only. *)
Lemma universal_newlines_fragments s :
  exists f fs fs',
    Py.fragments is_segment_end s = f :: fs /\
    Py.fragments is_segment_end (Csv.universal_newlines s) = f :: fs' /\
    nonempty fs = nonempty fs'.
Proof.
  induction s as [|c s (f & fs & fs' & H1 & H2 & H3)]; [by exists EmptyString, [], []|].
  rewrite universal_newlines_cons.
  assert (nonempty (Py.fragments is_segment_end s)
          = nonempty (Py.fragments is_segment_end (Csv.universal_newlines s)))
    as Hall.
  { rewrite H1, H2. unfold nonempty. rewrite !filter_cons.
    fold (nonempty fs). fold (nonempty fs'). by rewrite H3. }
  destruct (Ascii.eqb_spec c Csv.CR) as [->|Hc].
  - rewrite fragments_end by reflexivity.
    destruct s as [|c' s'].
    + by exists EmptyString, [EmptyString], [EmptyString].
    + destruct (Ascii.eqb_spec c' Csv.LF) as [->|Hc'].
      * pose proof H1 as H1'. rewrite fragments_end in H1' by reflexivity.
        injection H1' as <- _.
        exists EmptyString, (Py.fragments is_segment_end (String Csv.LF s')), fs'.
        split; [reflexivity|]. split; [exact H2|].
        rewrite H1. rewrite nonempty_cons_empty. exact H3.
      * rewrite (fragments_end _ Csv.LF) by reflexivity.
        eexists _, _, _. split; [reflexivity|]. split; [reflexivity|].
        exact Hall.
  - destruct (is_segment_end c) eqn:He.
    + rewrite !fragments_end by done.
      eexists _, _, _. split; [reflexivity|]. split; [reflexivity|]. exact Hall.
    + rewrite !fragments_char by done. rewrite H1, H2. simpl.
      eexists _, _, _. split; [reflexivity|]. split; [reflexivity|]. exact H3.
Qed.

(** *** The reader on text without quote characters *)

Lemma string_length_app a b :
  String.length (a +:+ b) = String.length a + String.length b.
Proof.
  induction a as [|c a IH]; [reflexivity|].
  change (S (String.length (a +:+ b)) = S (String.length a + String.length b)).
  by rewrite IH.
Qed.

Lemma reader_from_char r c s :
  Ascii.eqb c Csv.LF = false ->
  Csv.reader_from r (Csv.readlines (String c s)) =
    match Csv.parse_process_char r (Some c) with
    | Some r' => reader_rest r' s
    | None => ([], true)
    end.
Proof.
  intros Hc. unfold reader_rest. cbn [Csv.readlines]. rewrite Hc.
  destruct (Csv.readlines s) as [|l ls]; cbn [Csv.reader_from Csv.parse_line];
    destruct (Csv.parse_process_char r (Some c)); reflexivity.
Qed.

Lemma reader_rest_char r c s :
  Ascii.eqb c Csv.LF = false ->
  reader_rest r (String c s) =
    match Csv.parse_process_char r (Some c) with
    | Some r' => reader_rest r' s
    | None => ([], true)
    end.
Proof.
  intros Hc. rewrite <- reader_from_char by done.
  unfold reader_rest at 1. cbn [Csv.readlines]. rewrite Hc.
  by destruct (Csv.readlines s).
Qed.

Lemma reader_rest_LF r s :
  reader_rest r (String Csv.LF s) =
    Csv.reader_from r (String Csv.LF EmptyString :: Csv.readlines s).
Proof. reflexivity. Qed.

Lemma in_record_end_of_line st fs cur rest :
  st = Csv.START_FIELD \/ st = Csv.IN_FIELD ->
  Csv.reader_from (in_record st fs cur) (EmptyString :: rest) =
    let '(rows, err) := Csv.reader_from Csv.parse_reset rest in
    ((fs ++ [cur]) :: rows, err).
Proof. by intros [-> | ->]. Qed.

Lemma in_record_LF st fs cur rest :
  st = Csv.START_FIELD \/ st = Csv.IN_FIELD ->
  Csv.reader_from (in_record st fs cur) (String Csv.LF EmptyString :: rest) =
    let '(rows, err) := Csv.reader_from Csv.parse_reset rest in
    ((fs ++ [cur]) :: rows, err).
Proof. by intros [-> | ->]. Qed.

Lemma in_record_delimiter st fs cur :
  st = Csv.START_FIELD \/ st = Csv.IN_FIELD ->
  Csv.parse_process_char (in_record st fs cur) (Some "~"%char) =
    Some (in_record Csv.START_FIELD (fs ++ [cur]) EmptyString).
Proof. by intros [-> | ->]. Qed.

Lemma in_record_char st fs cur c :
  st = Csv.START_FIELD \/ st = Csv.IN_FIELD ->
  is_segment_end c = false -> Ascii.eqb c Csv.QUOTECHAR = false ->
  (N.of_nat (String.length cur) < Csv.field_limit)%N ->
  Csv.parse_process_char (in_record st fs cur) (Some c) =
    Some (in_record Csv.IN_FIELD fs (cur +:+ String c EmptyString)).
Proof.
  intros Hst He Hq Hlen. unfold is_segment_end in He.
  apply orb_false_iff in He as [Hd Hn].
  assert ((Csv.field_limit <=? N.of_nat (String.length cur))%N = false) as Hlim
    by (apply N.leb_gt; exact Hlen).
  assert (N.of_nat (String.length (cur +:+ String c EmptyString))
          = (N.of_nat (String.length cur) + 1)%N) as Hl.
  { rewrite string_length_app. simpl. lia. }
  unfold in_record. rewrite Hl.
  destruct Hst as [-> | ->]; unfold Csv.parse_process_char; cbn [Csv.state];
    rewrite Hn, ?Hq, Hd;
    unfold Csv.parse_add_char_to, Csv.parse_add_char; cbn [Csv.field_len];
    rewrite Hlim; reflexivity.
Qed.

Lemma start_record_LF rest :
  Csv.reader_from Csv.parse_reset (String Csv.LF EmptyString :: rest) =
    let '(rows, err) := Csv.reader_from Csv.parse_reset rest in
    ([] :: rows, err).
Proof. reflexivity. Qed.

Lemma start_record_char c :
  Csv.is_newline c = false ->
  Csv.parse_process_char Csv.parse_reset (Some c) =
    Csv.parse_process_char (in_record Csv.START_FIELD [] EmptyString) (Some c).
Proof.
  intros Hn. unfold Csv.parse_process_char. cbn [Csv.state Csv.parse_reset].
  rewrite Hn. reflexivity.
Qed.

Lemma within_field_limit_prepend cur c pieces :
  Forall within_field_limit (prepend (cur +:+ String c EmptyString) pieces) ->
  (N.of_nat (String.length cur) < Csv.field_limit)%N.
Proof.
  unfold within_field_limit.
  destruct pieces as [|f fs]; simpl; intros H; apply Forall_cons in H as [H _];
    rewrite !string_length_app in H; simpl in H; lia.
Qed.

(** A character of the text is the delimiter, a line feed, or goes into
    the current field. *)
Lemma text_char_cases c :
  Ascii.eqb c Csv.CR = false ->
  c = "~"%char \/ c = Csv.LF \/
  (is_segment_end c = false /\ Ascii.eqb c Csv.LF = false).
Proof.
  intros Hcr. destruct (Ascii.eqb_spec c "~") as [->|Hd]; [by left|].
  destruct (Ascii.eqb_spec c Csv.LF) as [->|Hlf]; [by right; left|].
  right; right. unfold is_segment_end, Csv.is_newline.
  apply Ascii.eqb_neq in Hd, Hlf. by rewrite Hd, Hlf, Hcr.
Qed.

Lemma tokens_cons row rows err :
  tokens (row :: rows, err) = nonempty row ++ tokens (rows, err).
Proof. unfold tokens. simpl. apply nonempty_app. Qed.

(** On text without CR and without quote characters, whose pieces are
    within the field limit, the reader raises no error and its fields
    are the pieces of the text between delimiters and line feeds,
    empty fields apart: at the start of a line, and in the middle of a
    line with the fields [fs] read and the field [cur] begun. *)
Lemma reader_pieces s :
  occurs Csv.CR s = false -> occurs Csv.QUOTECHAR s = false ->
  (Forall within_field_limit (Py.fragments is_segment_end s) ->
   snd (Csv.reader_from Csv.parse_reset (Csv.readlines s)) = false /\
   tokens (Csv.reader_from Csv.parse_reset (Csv.readlines s))
     = nonempty (Py.fragments is_segment_end s)) /\
  (forall st fs cur,
     st = Csv.START_FIELD \/ st = Csv.IN_FIELD ->
     Forall within_field_limit (prepend cur (Py.fragments is_segment_end s)) ->
     snd (reader_rest (in_record st fs cur) s) = false /\
     tokens (reader_rest (in_record st fs cur) s)
       = nonempty (fs ++ prepend cur (Py.fragments is_segment_end s))).
Proof.
  induction s as [|c s IH]; intros Hcr Hq.
  - split; [by intros _|].
    intros st fs cur Hst _. unfold reader_rest. cbn [Csv.readlines].
    rewrite in_record_end_of_line by done.
    change (Csv.reader_from Csv.parse_reset []) with (@nil (list string), false).
    cbv iota beta. split; [reflexivity|]. unfold tokens. cbn [fst concat prepend Py.fragments].
    by rewrite app_nil_r, string_app_nil_r.
  - cbn [occurs] in Hcr, Hq.
    apply orb_false_iff in Hcr as [Hc_cr Hcr].
    apply orb_false_iff in Hq as [Hc_q Hq].
    destruct (IH Hcr Hq) as [IHstart IHmid]. clear IH.
    destruct (text_char_cases c Hc_cr) as [->|[->|[He Hlf]]].
    + (* the delimiter *)
      rewrite fragments_end by reflexivity. split.
      * intros Hlim. apply Forall_cons in Hlim as [_ Hlim].
        rewrite reader_from_char by reflexivity.
        rewrite start_record_char by reflexivity.
        rewrite in_record_delimiter by auto.
        destruct (fragments_cons is_segment_end s) as (f & fs & Hf).
        destruct (IHmid Csv.START_FIELD ([] ++ [EmptyString]) EmptyString)
          as [Herr Htok]; [auto | by rewrite Hf; rewrite Hf in Hlim|].
        split; [exact Herr|]. rewrite Htok, Hf. reflexivity.
      * intros st fs cur Hst Hlim. cbn [prepend] in *.
        apply Forall_cons in Hlim as [_ Hlim].
        rewrite reader_rest_char by reflexivity.
        rewrite in_record_delimiter by done.
        destruct (fragments_cons is_segment_end s) as (f & fs' & Hf).
        destruct (IHmid Csv.START_FIELD (fs ++ [cur]) EmptyString)
          as [Herr Htok]; [auto | by rewrite Hf; rewrite Hf in Hlim|].
        split; [exact Herr|]. rewrite Htok, Hf. cbn [prepend].
        rewrite string_app_nil_r, <- app_assoc. reflexivity.
    + (* a line feed *)
      rewrite fragments_end by reflexivity. split.
      * intros Hlim. apply Forall_cons in Hlim as [_ Hlim].
        destruct (IHstart Hlim) as [Herr Htok].
        cbn [Csv.readlines]. change (Ascii.eqb Csv.LF Csv.LF) with true. cbv iota.
        rewrite start_record_LF.
        destruct (Csv.reader_from Csv.parse_reset (Csv.readlines s)) as [rows err].
        split; [exact Herr|]. rewrite tokens_cons, Htok. reflexivity.
      * intros st fs cur Hst Hlim. cbn [prepend] in *.
        apply Forall_cons in Hlim as [_ Hlim].
        destruct (IHstart Hlim) as [Herr Htok].
        rewrite reader_rest_LF, in_record_LF by done.
        destruct (Csv.reader_from Csv.parse_reset (Csv.readlines s)) as [rows err].
        split; [exact Herr|]. rewrite tokens_cons, Htok.
        rewrite string_app_nil_r.
        change (fs ++ cur :: Py.fragments is_segment_end s)
          with (fs ++ [cur] ++ Py.fragments is_segment_end s).
        symmetry. rewrite app_assoc. apply nonempty_app.
    + (* a character of a segment *)
      rewrite fragments_char by done.
      assert (Csv.is_newline c = false) as Hn.
      { unfold is_segment_end in He. by apply orb_false_iff in He as [_ ?]. }
      split.
      * intros Hlim.
        rewrite reader_from_char by done. rewrite start_record_char by done.
        rewrite in_record_char; [|auto|done|done|].
        2:{ apply (within_field_limit_prepend EmptyString c
                     (Py.fragments is_segment_end s)). exact Hlim. }
        destruct (IHmid Csv.IN_FIELD [] (String c EmptyString))
          as [Herr Htok]; [auto | exact Hlim|].
        split; [exact Herr | exact Htok].
      * intros st fs cur Hst Hlim. rewrite prepend_prepend in *.
        rewrite reader_rest_char by done.
        rewrite in_record_char; [|done|done|done|].
        2:{ by apply (within_field_limit_prepend cur c
                        (Py.fragments is_segment_end s)). }
        by apply IHmid; auto.
Qed.

Lemma segments_of_tokens content :
  segments_of content = tokens (Csv.reader content).
Proof. reflexivity. Qed.

Lemma within_field_limit_universal_newlines s :
  Forall within_field_limit (Py.fragments is_segment_end s) ->
  Forall within_field_limit
    (Py.fragments is_segment_end (Csv.universal_newlines s)).
Proof.
  destruct (universal_newlines_fragments s) as (f & fs & fs' & -> & -> & Hne).
  intros Hall. apply Forall_cons in Hall as [Hf Hfs].
  apply Forall_cons. split; [exact Hf|].
  apply Forall_forall. intros x Hx.
  destruct (Py.truthy x) eqn:Ht.
  - assert (x ∈ nonempty fs) as Hin.
    { rewrite Hne. unfold nonempty. by apply list_elem_of_filter. }
    unfold nonempty in Hin. apply list_elem_of_filter in Hin as [_ Hin].
    rewrite Forall_forall in Hfs. by apply Hfs.
  - destruct x; [|discriminate]. unfold within_field_limit. simpl. lia.
Qed.

(** ** C2 *)

(** C2, as stated, fails: the reader yields one record per line, so a
    line break ends a segment.  A BHT segment broken after its first two
    characters arrives as the two segments BH and T..., not as the one
    segment that tokenizing on ['~'] alone, across the line break, would
    give. *)
Lemma C2_counterexample :
  segments_of split_across_lines =
    ["ISA*00"; "GS*HC"; "ST*837*0001"; "BH"; "T*0019*00*CE0001";
     "SE*3*0001"; "GE*1*1"; "IEA*1"] /\
  nonempty (Py.split (remove_line_breaks split_across_lines) "~") =
    ["ISA*00"; "GS*HC"; "ST*837*0001"; "BHT*0019*00*CE0001";
     "SE*3*0001"; "GE*1*1"; "IEA*1"] /\
  segments_of split_across_lines
    <> nonempty (Py.split (remove_line_breaks split_across_lines) "~").
Proof.
  split; [vm_compute; reflexivity|]. split; [vm_compute; reflexivity|].
  vm_compute. discriminate.
Qed.

(** C2, amended.  For content without a quote character whose pieces
    are within the field size limit of the reader, the tokenization
    stage raises no error and yields, in file order, the non-empty pieces
    of the content between delimiters and line breaks, the delimiters
    and line breaks stripped.  A line break ends a segment as the
    delimiter does: a segment split across a line boundary arrives as
    two segments. *)
Theorem C2_tokenization content :
  occurs Csv.QUOTECHAR content = false ->
  Forall within_field_limit (Py.fragments is_segment_end content) ->
  snd (Csv.reader content) = false /\
  segments_of content = nonempty (Py.fragments is_segment_end content).
Proof.
  intros Hq Hlim. rewrite segments_of_tokens. unfold Csv.reader.
  destruct (reader_pieces (Csv.universal_newlines content)) as [Hstart _].
  { apply universal_newlines_no_CR. }
  { by apply universal_newlines_occurs. }
  destruct (Hstart (within_field_limit_universal_newlines _ Hlim)) as [Herr Htok].
  split; [exact Herr|]. rewrite Htok.
  destruct (universal_newlines_fragments content) as (f & fs & fs' & -> & -> & Hne).
  unfold nonempty in *. rewrite !filter_cons, Hne. reflexivity.
Qed.

Lemma C2_witness :
  snd (Csv.reader split_across_lines) = false /\
  segments_of split_across_lines
    = nonempty (Py.fragments is_segment_end split_across_lines).
Proof.
  apply (C2_tokenization split_across_lines).
  - vm_compute. reflexivity.
  - vm_compute. repeat constructor; discriminate.
Defined.


(** * Further properties of the program *)

(** ** [init] *)

(** X1. [init] returns and sets the count of every claim type to 0,
    whatever it was; it adds no other key and leaves the other globals,
    the list of claims included, as they are. *)
Theorem init_zeroes_every_type w :
  fst (init w) = Ok tt /\
  (forall t, claim_counts (snd (init w)) !! Some t = Some 0%N) /\
  claim_counts (snd (init w)) !! None = claim_counts w !! None /\
  heap (snd (init w)) = heap w /\ header (snd (init w)) = header w /\
  footer (snd (init w)) = footer w /\ claims (snd (init w)) = claims w /\
  files (snd (init w)) = files w.
Proof.
  rewrite init_spec. cbn [fst snd].
  split; [reflexivity|]. split.
  - intros []; cbn [claim_counts set_claim_counts].
    + by rewrite lookup_insert_ne, lookup_insert_eq.
    + by rewrite lookup_insert_eq.
  - cbn [claim_counts set_claim_counts].
    by rewrite !lookup_insert_ne.
Qed.

(** ** The exit codes *)

(** X2. The error categories have pairwise distinct exit codes. *)
Theorem ErrorCode_value_injective e1 e2 :
  ErrorCode_value e1 = ErrorCode_value e2 -> e1 = e2.
Proof. destruct e1, e2; simpl; intros H; first [reflexivity | discriminate H]. Qed.

Lemma ErrorCode_value_injective_witness : ERR_UNKNOWN = ERR_UNKNOWN.
Proof. apply ErrorCode_value_injective. reflexivity. Defined.

(** ** The dispatch on the prefix *)

Lemma kind_of_footer s :
  Py.startswith_any s FOOTER_SEGMENTS = true -> kind_of s = FooterSegment.
Proof.
  unfold Py.startswith_any, FOOTER_SEGMENTS, Py.startswith. cbn [existsb].
  rewrite orb_false_r. intros H. apply orb_true_iff in H as [H|H];
    invert_prefix H; by destruct_tail.
Qed.

Lemma kind_of_header s :
  Py.startswith_any s HEADER_SEGMENTS = true -> kind_of s = HeaderSegment.
Proof.
  unfold Py.startswith_any, HEADER_SEGMENTS, Py.startswith. cbn [existsb].
  rewrite orb_false_r. intros H. apply orb_true_iff in H as [H|H];
    invert_prefix H; by destruct_tail.
Qed.

(** X3. The prefixes the classifier looks for exclude one another: a
    segment that passes one of the five tests takes the branch of that
    test, in whatever order the tests are made, and a non-empty segment
    that passes none is a plain claim segment. *)
Theorem kind_of_by_prefix s :
  (Py.startswith_any s HEADER_SEGMENTS = true -> kind_of s = HeaderSegment) /\
  (Py.startswith_any s FOOTER_SEGMENTS = true -> kind_of s = FooterSegment) /\
  (Py.startswith s CLAIM_START_SEGMENT = true -> kind_of s = ClaimStart) /\
  (Py.startswith s CLAIM_END_SEGMENT = true -> kind_of s = ClaimEnd) /\
  (Py.startswith s CLAIM_TYPE_SEGMENT = true -> kind_of s = ClaimTypeSegment) /\
  (Py.truthy s = true ->
   Py.startswith_any s HEADER_SEGMENTS = false ->
   Py.startswith_any s FOOTER_SEGMENTS = false ->
   Py.startswith s CLAIM_START_SEGMENT = false ->
   Py.startswith s CLAIM_END_SEGMENT = false ->
   Py.startswith s CLAIM_TYPE_SEGMENT = false ->
   kind_of s = ClaimOther).
Proof.
  split; [apply kind_of_header|]. split; [apply kind_of_footer|].
  split; [apply kind_of_claim_start|]. split; [apply kind_of_claim_end|].
  split; [apply kind_of_claim_type|].
  intros Ht Hh Hf Hs He Hb. unfold kind_of. by rewrite Ht, Hh, Hf, Hs, He, Hb.
Qed.

(** ** Missing arguments *)

Lemma require_arg_missing a w :
  missing a -> require_arg a w = (Exit 2, w).
Proof. by intros [-> | ->]. Qed.

(** X4. Without a subcommand the run ends with exit code 1.  A
    subcommand whose input file is not given or empty, and [split] with
    no output directory, ends the run with exit code 2.  No file is
    opened before (the platform plays no part in the result) and the
    state is as [init] left it. *)
Theorem argument_errors env w input_file output_dir :
  run env NoSubcommand w = (Exit 1, snd (init w)) /\
  (missing input_file ->
   run env (VerifyCmd input_file) w = (Exit 2, snd (init w)) /\
   run env (SplitCmd input_file output_dir) w = (Exit 2, snd (init w))) /\
  (missing output_dir ->
   run env (SplitCmd input_file output_dir) w = (Exit 2, snd (init w))).
Proof.
  split; [reflexivity|]. split.
  - intros Hm. split.
    + rewrite run_dispatch. unfold dispatch, verify.
      unfold bind. by rewrite (require_arg_missing _ _ Hm).
    + rewrite run_dispatch. unfold dispatch, split.
      unfold bind at 1. by rewrite (require_arg_missing _ _ Hm).
  - intros Hm. rewrite run_dispatch. unfold dispatch, split.
    unfold bind at 1.
    destruct input_file as [a|]; [|reflexivity].
    unfold require_arg at 1. destruct (Py.truthy a); [|reflexivity].
    unfold ret at 1. unfold bind at 1. by rewrite (require_arg_missing _ _ Hm).
Qed.

(** ** Writing changes the files only *)

Lemma same_globals_refl w : same_globals w w.
Proof. by unfold same_globals. Qed.

Lemma same_globals_trans w1 w2 w3 :
  same_globals w1 w2 -> same_globals w2 w3 -> same_globals w1 w3.
Proof.
  unfold same_globals. intros (? & ? & ? & ? & ?) (? & ? & ? & ? & ?).
  repeat split; congruence.
Qed.

Lemma same_globals_set_files w f : same_globals w (set_files w f).
Proof. by unfold same_globals. Qed.

Lemma for_each_same_globals {A} (body : A -> M unit) l :
  (forall x w r w', body x w = (r, w') -> same_globals w w') ->
  forall w r w', for_each l body w = (r, w') -> same_globals w w'.
Proof.
  intros Hbody. induction l as [|x l IH]; intros w r w' Hrun; simpl in Hrun.
  - unfold ret in Hrun. simplify_eq. apply same_globals_refl.
  - unfold bind in Hrun. destruct (body x w) as [r1 w1] eqn:Hx.
    apply Hbody in Hx.
    destruct r1; simplify_eq; [|done..].
    eapply same_globals_trans; eauto.
Qed.

Lemma bind_same_globals {A B} (m : M A) (k : A -> M B) :
  (forall w r w', m w = (r, w') -> same_globals w w') ->
  (forall a w r w', k a w = (r, w') -> same_globals w w') ->
  forall w r w', bind m k w = (r, w') -> same_globals w w'.
Proof.
  intros Hm Hk w r w' Hrun. unfold bind in Hrun.
  destruct (m w) as [r1 w1] eqn:H1. apply Hm in H1.
  destruct r1; simplify_eq; [|done..].
  eapply same_globals_trans; eauto.
Qed.

Lemma fh_write_same_globals fn s w r w' :
  fh_write fn s w = (r, w') -> same_globals w w'.
Proof. unfold fh_write. intros H. simplify_eq. apply same_globals_set_files. Qed.

Lemma ret_same_globals {A} (a : A) w r w' :
  ret a w = (r, w') -> same_globals w w'.
Proof. unfold ret. intros H. simplify_eq. apply same_globals_refl. Qed.

Lemma raise_same_globals {A} e w (r : outcome A) w' :
  raise e w = (r, w') -> same_globals w w'.
Proof. unfold raise. intros H. simplify_eq. apply same_globals_refl. Qed.

Lemma counts_getitem_same_globals key w r w' :
  counts_getitem key w = (r, w') -> same_globals w w'.
Proof.
  unfold counts_getitem. destruct (claim_counts w !! key); intros H;
    simplify_eq; apply same_globals_refl.
Qed.

Lemma handle_error_same_globals {A} code w (r : outcome A) w' :
  handle_error code w = (r, w') -> same_globals w w'.
Proof. unfold handle_error. intros H. simplify_eq. apply same_globals_refl. Qed.

Lemma fh_open_same_globals fn w r w' :
  fh_open fn w = (r, w') -> same_globals w w'.
Proof. unfold fh_open. intros H. simplify_eq. apply same_globals_set_files. Qed.

Lemma get_world_same_globals w r w' :
  get_world w = (r, w') -> same_globals w w'.
Proof. unfold get_world. intros H. simplify_eq. apply same_globals_refl. Qed.

Lemma write_claim_data_same_globals fn t c w r w' :
  write_claim_data fn t c w = (r, w') -> same_globals w w'.
Proof.
  unfold write_claim_data. destruct (decide _); [|apply ret_same_globals].
  apply bind_same_globals; [apply fh_write_same_globals|]. intros _.
  apply bind_same_globals; [|intros; by eapply fh_write_same_globals].
  apply get_world_same_globals.
Qed.

Lemma write_footer_segment_same_globals fn t s w r w' :
  write_footer_segment fn t s w = (r, w') -> same_globals w w'.
Proof.
  unfold write_footer_segment.
  apply bind_same_globals; [apply fh_write_same_globals|]. intros _.
  apply bind_same_globals; [|intros; by eapply fh_write_same_globals].
  destruct (Py.startswith s FOOTER_CLAIM_COUNT_SEGMENT);
    [|apply ret_same_globals].
  apply bind_same_globals; [apply counts_getitem_same_globals|]. intros n.
  destruct (list_setitem _ _ _); [apply ret_same_globals | apply raise_same_globals].
Qed.

(** X5. Whatever its outcome, [write_output_file] changes nothing but
    the files: the header, the footer, the claims with their data and
    the counts are as before. *)
Theorem write_output_file_changes_files_only env output_dir t prefix suffix w r w' :
  write_output_file env output_dir t prefix suffix w = (r, w') ->
  same_globals w w'.
Proof.
  revert w r w'. unfold write_output_file.
  apply bind_same_globals; [apply counts_getitem_same_globals|]. intros n.
  destruct (negb (n =? 0)%N); [|apply ret_same_globals].
  destruct (open_w env _) as [k|].
  { destruct k; first [apply handle_error_same_globals | apply raise_same_globals]. }
  apply bind_same_globals; [apply fh_open_same_globals|]. intros _.
  apply bind_same_globals; [apply get_world_same_globals|]. intros w0.
  apply bind_same_globals; [apply fh_write_same_globals|]. intros _.
  apply bind_same_globals.
  - apply for_each_same_globals. intros c. apply write_claim_data_same_globals.
  - intros _. apply for_each_same_globals. intros s.
    apply write_footer_segment_same_globals.
Qed.

Lemma write_output_file_changes_files_only_witness :
  let env := one_file "in.edi" footer_without_count in
  let w := snd (parse_input_file env "in.edi" (snd (init World0))) in
  same_globals w (snd (write_output_file env "out" CE "in" ".edi" w)).
Proof.
  intros env w.
  apply (write_output_file_changes_files_only env "out" CE "in" ".edi" w
           (fst (write_output_file env "out" CE "in" ".edi" w))).
  by destruct (write_output_file env "out" CE "in" ".edi" w).
Defined.

(** ** The output file that cannot be opened *)

(** X6. When the claim type has claims and the output file cannot be
    opened because of FileNotFoundError (the output directory is not
    there) or PermissionError, [write_output_file] ends the run with the
    exit code of ERR_CANT_WRITE_FILE, 4, and nothing is written. *)
Theorem write_output_file_cannot_open env output_dir t prefix suffix w n k :
  claim_counts w !! Some t = Some n -> n <> 0%N ->
  open_w env (output_filename env output_dir t prefix suffix) = Some k ->
  k = FileNotFoundError \/ k = PermissionError ->
  write_output_file env output_dir t prefix suffix w = (Exit 4, w).
Proof.
  intros Hn Hpos Ho Hk. unfold write_output_file.
  unfold bind at 1, counts_getitem at 1. rewrite Hn.
  apply N.eqb_neq in Hpos. rewrite Hpos. cbn [negb].
  fold (output_filename env output_dir t prefix suffix). rewrite Ho.
  by destruct Hk as [-> | ->].
Qed.

Lemma write_output_file_cannot_open_witness :
  let env := {| os_path_sep := "/"; os_path_basename := posix_basename;
                open_r := fun _ => Opened two_claims;
                open_w := fun _ => Some FileNotFoundError |} in
  let w := snd (parse_input_file env "in.edi" (snd (init World0))) in
  write_output_file env "out" CE "in" ".edi" w = (Exit 4, w).
Proof.
  intros env w.
  apply (write_output_file_cannot_open env "out" CE "in" ".edi" w 1%N
           FileNotFoundError).
  - vm_compute. reflexivity.
  - discriminate.
  - reflexivity.
  - by left.
Defined.

(** ** [split] after the parse *)

Lemma init_zeroes_every_type_keys w t :
  is_Some (claim_counts (snd (init w)) !! Some t).
Proof.
  rewrite init_spec. cbn [snd claim_counts set_claim_counts].
  destruct t.
  - rewrite lookup_insert_ne, lookup_insert_eq by done. by eexists.
  - rewrite lookup_insert_eq. by eexists.
Qed.

Lemma write_output_file_spec env output_dir t prefix suffix w n :
  claim_counts w !! Some t = Some n ->
  open_w env (output_filename env output_dir t prefix suffix) = None ->
  footer_has_counts (footer w) ->
  write_output_file env output_dir t prefix suffix w =
    (Ok tt,
     if (0 <? n)%N
     then set_files w (<[output_filename env output_dir t prefix suffix
                         := expected_output w t n]> (files w))
     else w).
Proof.
  intros Hn Ho Hfooter. unfold write_output_file.
  unfold bind at 1, counts_getitem at 1. rewrite Hn.
  destruct (N.eqb_spec n 0) as [->|Hpos]; simpl; [reflexivity|].
  fold (output_filename env output_dir t prefix suffix). rewrite Ho.
  replace (0 <? n)%N with true by (symmetry; apply N.ltb_lt; lia).
  unfold bind at 1, fh_open at 1.
  fold (writing (output_filename env output_dir t prefix suffix) w (files w) EmptyString).
  unfold bind at 1, get_world at 1. cbn [header claims footer writing set_files].
  fold (writing (output_filename env output_dir t prefix suffix) w (files w) EmptyString).
  unfold bind at 1. rewrite fh_write_writing.
  unfold bind at 1. rewrite write_claims_writing.
  rewrite (write_footer_writing _ _ _ _ n) by assumption.
  unfold expected_output. by rewrite !string_app_assoc.
Qed.

Lemma claims_text_same_heap w w' t cs :
  heap w' = heap w -> claims_text w' t cs = claims_text w t cs.
Proof.
  intros Hh. induction cs as [|c cs IH]; [reflexivity|].
  cbn [claims_text]. unfold deref. by rewrite Hh, IH.
Qed.

Lemma expected_output_same_globals w w' t n :
  same_globals w w' -> expected_output w' t n = expected_output w t n.
Proof.
  intros (Hh & Hhd & Hf & Hc & _). unfold expected_output.
  by rewrite Hhd, Hf, Hc, (claims_text_same_heap w w' t _ Hh).
Qed.

Lemma with_output_same_globals env d prefix suffix t w0 w :
  same_globals w0 w -> same_globals w0 (with_output env d prefix suffix t w0 w).
Proof.
  intros H. unfold with_output.
  destruct (claim_counts w0 !! Some t) as [n|]; [|done].
  destruct (0 <? n)%N; [|done].
  eapply same_globals_trans; [exact H | apply same_globals_set_files].
Qed.

(** One round of the loop over the claim types at the end of [split]. *)
Lemma split_writes_type env d prefix suffix t w0 w :
  same_globals w0 w ->
  is_Some (claim_counts w0 !! Some t) ->
  open_w env (output_filename env d t prefix suffix) = None ->
  footer_has_counts (footer w0) ->
  (n <- counts_getitem (Some t) ;;
   if negb (n =? 0)%N then write_output_file env d t prefix suffix
   else ret tt) w
  = (Ok tt, with_output env d prefix suffix t w0 w).
Proof.
  intros Hsame [n Hn] Ho Hfooter.
  pose proof Hsame as (Hh & Hhd & Hf & Hc & Hcounts).
  unfold bind, counts_getitem, with_output. rewrite Hcounts, Hn.
  destruct (N.eqb_spec n 0) as [->|Hpos]; [reflexivity|]. cbn [negb].
  rewrite (write_output_file_spec _ _ _ _ _ _ n);
    [|by rewrite Hcounts | assumption | by unfold footer_has_counts; rewrite Hf].
  by rewrite (expected_output_same_globals w0 w).
Qed.

Lemma parse_segment_keeps_keys k s l w r w' :
  is_Some (claim_counts w !! k) ->
  parse_segment s l w = (r, w') ->
  is_Some (claim_counts w' !! k).
Proof.
  intros Hk Hstep. step_cases s Hstep; split_lookups Hstep; simplify_eq; try done.
  simpl. apply lookup_insert_is_Some'. by right.
Qed.

Lemma classify_keeps_keys k segs l w r w' :
  is_Some (claim_counts w !! k) ->
  classify segs l w = (r, w') ->
  is_Some (claim_counts w' !! k).
Proof.
  revert l w. induction segs as [|s segs IH]; intros l w Hk Hrun.
  - unfold classify in Hrun; simpl in Hrun. unfold ret in Hrun. by simplify_eq.
  - rewrite classify_cons in Hrun. unfold bind in Hrun.
    destruct (parse_segment s l w) as [r1 w1] eqn:Hstep.
    pose proof (parse_segment_keeps_keys _ _ _ _ _ _ Hk Hstep).
    destruct r1; simplify_eq; eauto.
Qed.

Lemma parse_input_file_keeps_keys k env filename w r w' :
  is_Some (claim_counts w !! k) ->
  parse_input_file env filename w = (r, w') ->
  is_Some (claim_counts w' !! k).
Proof.
  intros Hk Hrun. destruct (open_r env filename) as [content|e] eqn:Ho.
  - rewrite (parse_input_file_opened _ _ _ _ Ho) in Hrun. unfold bind in Hrun.
    destruct (classify _ _ _) as [r1 w1] eqn:Hc.
    apply (classify_keeps_keys k) in Hc; [|exact Hk].
    destruct r1; [destruct (snd (Csv.reader content))|..];
      unfold raise, ret in Hrun; by simplify_eq.
  - rewrite (parse_input_file_open_fails _ _ _ _ Ho) in Hrun.
    destruct e; by simplify_eq.
Qed.

(** What [split] does once its arguments are there and the file is
    parsed. *)
Lemma split_parsed env f d w w' :
  Py.truthy f = true -> Py.truthy d = true ->
  parse_input_file env f w = (Ok tt, w') ->
  split env (Some f) (Some d) w =
    if bool_decide (header w' = []) then
      (Exit (ErrorCode_value ERR_HEADER_NOT_FOUND), w')
    else if bool_decide (footer w' = []) then
      (Exit (ErrorCode_value ERR_FOOTER_NOT_FOUND), w')
    else if bool_decide (claims w' = []) then
      (Exit (ErrorCode_value ERR_CLAIM_DATA_NOT_FOUND), w')
    else
      match Py.index (os_path_basename env f) "." with
      | None => (Raise ValueError, w')
      | Some first_period =>
          for_each ClaimType_members (fun ctype =>
            n <- counts_getitem (Some ctype) ;;
            if negb (n =? 0)%N then
              write_output_file env d ctype
                (Py.slice_to (os_path_basename env f) first_period)
                (Py.slice_from (os_path_basename env f) first_period)
            else ret tt) w'
      end.
Proof.
  intros Hf Hd Hp. unfold split.
  unfold bind at 1. rewrite (require_arg_truthy _ _ Hf).
  unfold bind at 1. rewrite (require_arg_truthy _ _ Hd).
  unfold bind at 1. rewrite Hp.
  unfold bind, get_world, handle_error, ret.
  repeat case_bool_decide; try reflexivity.
  by destruct (Py.index _ _).
Qed.

(** X7. When the file was parsed, [split] looks for the three sections
    in this order: with no header segment it ends the run with exit
    code 5, else with no footer segment with 6, else with no claim with
    7; in each case before any output file is opened. *)
Theorem split_missing_section env f d w w' :
  Py.truthy f = true -> Py.truthy d = true ->
  parse_input_file env f w = (Ok tt, w') ->
  (header w' = [] -> split env (Some f) (Some d) w = (Exit 5, w')) /\
  (header w' <> [] -> footer w' = [] ->
   split env (Some f) (Some d) w = (Exit 6, w')) /\
  (header w' <> [] -> footer w' <> [] -> claims w' = [] ->
   split env (Some f) (Some d) w = (Exit 7, w')).
Proof.
  intros Hf Hd Hp. rewrite (split_parsed _ _ _ _ _ Hf Hd Hp).
  repeat split; intros; repeat case_bool_decide; done.
Qed.

Lemma split_missing_section_witness :
  let env := one_file "in.edi" "ST*837*0001~BHT*0019*00*CE0001~SE*3*0001~GE*1*1~" in
  let w := snd (init World0) in
  split env (Some "in.edi") (Some "out") w
    = (Exit 5, snd (parse_input_file env "in.edi" w)).
Proof.
  intros env w.
  apply (split_missing_section env "in.edi" "out" w
           (snd (parse_input_file env "in.edi" w)));
    [reflexivity | reflexivity | vm_compute; reflexivity | vm_compute; reflexivity].
Defined.

(** X8. When the input file is parsed, the three sections are there,
    the base name of the input has a period, every output file can be
    opened and the GE segments of the footer have an element 1, the
    [split] subcommand returns and has written, for each claim type
    with a positive count and for no other, one file: its name is the
    base name with an underscore and the name of the type put before
    the first period, in the output directory, and its content is the
    header, the claims of the type and the footer with the count of the
    type.  Nothing else is changed. *)
Theorem split_writes_one_file_per_type env f d w0 w' first_period :
  Py.truthy f = true -> Py.truthy d = true ->
  parse_input_file env f (snd (init w0)) = (Ok tt, w') ->
  header w' <> [] -> footer w' <> [] -> claims w' <> [] ->
  Py.index (os_path_basename env f) "." = Some first_period ->
  (forall filename, open_w env filename = None) ->
  footer_has_counts (footer w') ->
  let prefix := Py.slice_to (os_path_basename env f) first_period in
  let suffix := Py.slice_from (os_path_basename env f) first_period in
  run env (SplitCmd (Some f) (Some d)) w0 =
    (Ok tt, with_output env d prefix suffix CF w'
              (with_output env d prefix suffix CE w' w')).
Proof.
  intros Hf Hd Hp Hh Hft Hc Hidx Ho Hfooter prefix suffix.
  assert (forall t, is_Some (claim_counts w' !! Some t)) as Hkeys.
  { intros t. eapply parse_input_file_keeps_keys; [|exact Hp].
    destruct (init_zeroes_every_type_keys w0 t) as [n Hn]. by exists n. }
  rewrite run_dispatch. cbn [dispatch].
  rewrite (split_parsed _ _ _ _ _ Hf Hd Hp).
  rewrite !bool_decide_eq_false_2 by done. rewrite Hidx.
  fold prefix. fold suffix. unfold ClaimType_members. cbn [for_each].
  unfold bind at 1.
  rewrite (split_writes_type env d prefix suffix CE w' w');
    [|apply same_globals_refl|apply Hkeys|apply Ho|exact Hfooter].
  unfold bind at 1.
  rewrite (split_writes_type env d prefix suffix CF w');
    [|apply with_output_same_globals, same_globals_refl|apply Hkeys|apply Ho
     |exact Hfooter].
  reflexivity.
Qed.

Lemma split_writes_one_file_per_type_witness :
  let env := one_file "data/in.x.edi" two_claims in
  let w' := snd (parse_input_file env "data/in.x.edi" (snd (init World0))) in
  run env (SplitCmd (Some "data/in.x.edi") (Some "out")) World0 =
    (Ok tt, with_output env "out" "in" ".x.edi" CF w'
              (with_output env "out" "in" ".x.edi" CE w' w')).
Proof.
  intros env w'.
  apply (split_writes_one_file_per_type env "data/in.x.edi" "out" World0 w' 2).
  - reflexivity.
  - reflexivity.
  - vm_compute. reflexivity.
  - vm_compute. discriminate.
  - vm_compute. discriminate.
  - vm_compute. discriminate.
  - vm_compute. reflexivity.
  - reflexivity.
  - vm_compute. repeat constructor; intros; try discriminate; vm_compute; lia.
Defined.

(** The two files of the example, as they are written. *)
Example split_two_claims_files :
  let env := one_file "data/in.x.edi" two_claims in
  map_to_list (files (snd (run env (SplitCmd (Some "data/in.x.edi") (Some "out")) World0)))
  = [("out/in_CE.x.edi",
      "ISA*00~GS*HC~ST*837*0001~BHT*0019*00*CE0001*20220101*1200~SE*3*0001~GE*1*1~IEA*1");
     ("out/in_CF.x.edi",
      "ISA*00~GS*HC~ST*837*0002~BHT*0019*00*CF0002*20220101*1201~SE*3*0002~GE*1*1~IEA*1")].
Proof. vm_compute. reflexivity. Qed.

(** ** How [verify] can end *)

Lemma parse_segment_never_exits s l w code w' :
  parse_segment s l w <> (Exit code, w').
Proof.
  intros Hstep. step_cases s Hstep; split_lookups Hstep; by simplify_eq.
Qed.

Lemma classify_never_exits segs l w code w' :
  classify segs l w <> (Exit code, w').
Proof.
  revert l w. induction segs as [|s segs IH]; intros l w Hrun.
  - unfold classify in Hrun; simpl in Hrun. unfold ret in Hrun. by simplify_eq.
  - rewrite classify_cons in Hrun. unfold bind in Hrun.
    destruct (parse_segment s l w) as [[l1|e|c] w1] eqn:Hstep.
    + by apply IH in Hrun.
    + discriminate.
    + by apply parse_segment_never_exits in Hstep.
Qed.

(** [parse_input_file] calls [sys.exit] for the file it cannot open and
    for nothing else. *)
Lemma parse_input_file_exit env filename w code w' :
  parse_input_file env filename w = (Exit code, w') -> code = 3%N /\ w' = w.
Proof.
  intros Hrun. destruct (open_r env filename) as [content|e] eqn:Ho.
  - rewrite (parse_input_file_opened _ _ _ _ Ho) in Hrun. unfold bind in Hrun.
    destruct (classify _ _ _) as [[l1|e|c] w1] eqn:Hc.
    + destruct (snd (Csv.reader content)); discriminate.
    + discriminate.
    + by apply classify_never_exits in Hc.
  - rewrite (parse_input_file_open_fails _ _ _ _ Ho) in Hrun.
    destruct e; by simplify_eq.
Qed.

(** X9. A run of the [verify] subcommand writes no file, and it ends
    in one of four ways: it returns, or it exits with 2 (no input
    file given), with 3 (the file cannot be opened) or with 255 (an
    exception left [verify], whatever it is, and [cli()] ended the
    run).  The except clause of the [__main__] block is not reached:
    the run never ends with ERR_UNKNOWN. *)
Theorem verify_outcomes env input_file w r w' :
  run env (VerifyCmd input_file) w = (r, w') ->
  files w' = files w /\
  (r = Ok tt \/ r = Exit 2 \/ r = Exit 3 \/ r = Exit 255) /\
  (r = Exit 255 <->
   exists e, fst (verify env input_file (snd (init w))) = Raise e) /\
  r <> Exit (ErrorCode_value ERR_UNKNOWN).
Proof.
  rewrite run_dispatch. cbn [dispatch].
  assert (files (snd (init w)) = files w) as Hfiles by (by rewrite init_spec).
  unfold verify, bind.
  destruct (require_arg input_file (snd (init w))) as [[a|e|c] w1] eqn:Ha.
  - assert (w1 = snd (init w)) as ->.
    { unfold require_arg in Ha. destruct input_file as [a'|]; [|discriminate].
      destruct (Py.truthy a'); unfold ret, handle_error in Ha; by simplify_eq. }
    destruct (parse_input_file env a (snd (init w))) as [[[]|e|c] w2] eqn:Hp;
      intros Hrun; simplify_eq; cbn [fst].
    + apply parse_input_file_files in Hp.
      split; [congruence|]. split; [by left|].
      split; [|done]. split; [done | by intros [? ?]].
    + apply parse_input_file_files in Hp.
      split; [congruence|]. split; [by do 3 right|].
      split; [|done]. split; [by eauto | done].
    + pose proof (parse_input_file_files _ _ _ _ _ Hp).
      apply parse_input_file_exit in Hp as [-> _].
      split; [congruence|]. split; [by right; right; left|].
      split; [|done]. split; [done | by intros [? ?]].
  - unfold require_arg in Ha. destruct input_file as [a'|];
      [destruct (Py.truthy a')|]; unfold ret, handle_error in Ha; discriminate.
  - intros Hrun. simplify_eq. cbn [fst].
    unfold require_arg in Ha. destruct input_file as [a'|];
      [destruct (Py.truthy a')|]; unfold ret, handle_error in Ha; simplify_eq;
      (split; [done|]; split; [by right; left|];
       split; [|done]; split; [done | by intros [? ?]]).
Qed.

Lemma verify_outcomes_witness :
  let env := one_file "in.edi" claim_end_first in
  let res := run env (VerifyCmd (Some "in.edi")) World0 in
  files (snd res) = files World0 /\
  (fst res = Ok tt \/ fst res = Exit 2 \/ fst res = Exit 3 \/ fst res = Exit 255) /\
  (fst res = Exit 255 <->
   exists e, fst (verify env (Some "in.edi") (snd (init World0))) = Raise e) /\
  fst res <> Exit (ErrorCode_value ERR_UNKNOWN).
Proof.
  intros env res.
  apply (verify_outcomes env (Some "in.edi") World0 (fst res) (snd res)).
  apply surjective_pairing.
Defined.

(** The run of the example: the claim-end segment comes before any BHT
    segment, the lookup of the count raises KeyError, and the run ends
    with the exit status of milc. *)
Example verify_claim_end_first :
  let env := one_file "in.edi" claim_end_first in
  fst (verify env (Some "in.edi") (snd (init World0))) = Raise KeyError /\
  fst (run env (VerifyCmd (Some "in.edi")) World0) = Exit 255.
Proof. vm_compute. by split. Qed.

(** ** The counts, type by type *)

Lemma claims_of_type_snoc t cs c :
  claims_of_type t (cs ++ [c]) =
    claims_of_type t cs ++ (if decide (claim_type c = Some t) then [c] else []).
Proof.
  unfold claims_of_type. rewrite filter_app, filter_cons, filter_nil.
  by destruct (decide _).
Qed.

Lemma parse_segment_counts_by_type s l w l' w' :
  counts_by_type w ->
  parse_segment s l w = (Ok l', w') ->
  counts_by_type w'.
Proof.
  intros (Hnone & Hcounts & Htyped) Hstep. unfold counts_by_type.
  step_cases s Hstep; split_lookups Hstep; simplify_eq; try done.
  assert (is_Some (cur_claim_type l')) as Hty.
  { destruct (cur_claim_type l'); [by eexists | congruence]. }
  cbn [claim_counts claims set_claim_counts sealed set_claims].
  split; [|split].
  - rewrite lookup_insert_ne; [done|].
    intros E. rewrite E in Hty. by destruct Hty.
  - intros t. rewrite claims_of_type_snoc. cbn [claim_type].
    destruct (decide (cur_claim_type l' = Some t)) as [Heq|Hne].
    + rewrite Heq in *. rewrite lookup_insert_eq, length_app. cbn [length].
      rewrite Hcounts in Heqo. injection Heqo as <-.
      apply (f_equal Some). lia.
    + rewrite lookup_insert_ne by done. rewrite app_nil_r. apply Hcounts.
  - apply Forall_app. split; [done|]. repeat constructor. exact Hty.
Qed.

Lemma classify_counts_by_type segs l w l' w' :
  counts_by_type w ->
  classify segs l w = (Ok l', w') ->
  counts_by_type w'.
Proof.
  revert l w. induction segs as [|s segs IH]; intros l w Hinv Hrun.
  - unfold classify in Hrun; simpl in Hrun. unfold ret in Hrun. by simplify_eq.
  - rewrite classify_cons in Hrun.
    apply bind_ok_inv in Hrun as (l1 & w1 & Hstep & Hrest).
    eauto using parse_segment_counts_by_type.
Qed.

(** X10. After [init] on a registry without claims and a
    [parse_input_file] that completes, the count of each claim type is
    the number of claims of that type in [claims], and every claim has a
    type.  So the count written into the GE segment of an output file is
    the number of claims written into that file. *)
Theorem counts_are_claims_by_type env filename w0 w' :
  claims w0 = [] -> claim_counts w0 !! None = None ->
  (init ;;; parse_input_file env filename) w0 = (Ok tt, w') ->
  (forall t, claim_counts w' !! Some t
             = Some (N.of_nat (length (claims_of_type t (claims w'))))) /\
  Forall (fun c => is_Some (claim_type c)) (claims w').
Proof.
  intros Hc Hn Hrun.
  apply bind_ok_inv in Hrun as ([] & w1 & Hinit & Hparse).
  assert (counts_by_type w1) as Hinv.
  { rewrite init_spec in Hinit. simplify_eq. unfold counts_by_type.
    cbn [claim_counts claims set_claim_counts]. rewrite Hc.
    split; [by rewrite !lookup_insert_ne|]. split; [|constructor].
    intros []; [by rewrite lookup_insert_ne, lookup_insert_eq
               | by rewrite lookup_insert_eq]. }
  apply parse_input_file_ok_inv in Hparse as (content & l' & Ho & Herr & Hcl).
  apply classify_counts_by_type in Hcl as (_ & Hcounts & Htyped); [done|].
  destruct Hinv as (? & ? & ?). by repeat split.
Qed.

Lemma counts_are_claims_by_type_witness :
  let env := one_file "in.edi" two_claims in
  let w' := snd ((init ;;; parse_input_file env "in.edi") World0) in
  (forall t, claim_counts w' !! Some t
             = Some (N.of_nat (length (claims_of_type t (claims w'))))) /\
  Forall (fun c => is_Some (claim_type c)) (claims w').
Proof.
  intros env w'.
  apply (counts_are_claims_by_type env "in.edi" World0 w');
    [reflexivity | reflexivity | vm_compute; reflexivity].
Defined.

(** ** What a completed parse has collected *)

Lemma of_kind_cons k s segs :
  of_kind k (s :: segs) =
    (if decide (kind_of s = k) then [s] else []) ++ of_kind k segs.
Proof. unfold of_kind. rewrite filter_cons. by destruct (decide _). Qed.

Lemma of_kind_truthy k segs :
  k <> EmptySegment ->
  of_kind k (filter (fun s => Py.truthy s = true) segs) = of_kind k segs.
Proof.
  intros Hk. induction segs as [|s segs IH]; [reflexivity|].
  rewrite filter_cons, (of_kind_cons k s segs).
  destruct (decide (Py.truthy s = true)) as [Ht|Ht].
  - by rewrite of_kind_cons, IH.
  - rewrite IH. rewrite decide_False; [reflexivity|].
    unfold kind_of. destruct (Py.truthy s); [done | cbn; congruence].
Qed.

(** Along a parse, with [n0] list objects in the heap when it began and
    a buffer that is none of them: the sections are appended to, the new
    claims are over list objects of the parse, and the list objects that
    were there before are not touched. *)
Lemma parse_segment_collects n0 s l w l' w' :
  n0 <= cur_claim_data l -> n0 <= length (heap w) ->
  parse_segment s l w = (Ok l', w') ->
  (n0 <= cur_claim_data l' /\ n0 <= length (heap w')) /\
  header w' = header w ++ of_kind HeaderSegment [s] /\
  footer w' = footer w ++ of_kind FooterSegment [s] /\
  (exists new, claims w' = claims w ++ new /\
               length new = length (of_kind ClaimEnd [s]) /\
               Forall (fun c => n0 <= data c) new) /\
  (forall i, i < n0 -> heap w' !! i = heap w !! i).
Proof.
  intros Hl Hh Hstep. rewrite !of_kind_cons. unfold of_kind. rewrite !filter_nil.
  step_cases s Hstep; split_lookups Hstep; simplify_eq;
    cbn [header footer claims heap set_header set_footer set_claims set_heap
         set_claim_counts appended sealed cur_claim_data decide_rel];
    rewrite ?length_alter, ?length_app; simpl; rewrite ?app_nil_r;
    (split; [split; lia|]); (split; [reflexivity|]); (split; [reflexivity|]);
    (split;
     [ first [ by exists []; rewrite app_nil_r
             | eexists [_]; split; [reflexivity|]; split; [reflexivity|];
               by repeat constructor ]
     | intros i Hi;
       first [ reflexivity
             | by rewrite lookup_app_l by lia
             | by rewrite list_lookup_alter_ne by lia ] ]).
Qed.

Lemma classify_collects n0 segs l w l' w' :
  n0 <= cur_claim_data l -> n0 <= length (heap w) ->
  classify segs l w = (Ok l', w') ->
  header w' = header w ++ of_kind HeaderSegment segs /\
  footer w' = footer w ++ of_kind FooterSegment segs /\
  (exists new, claims w' = claims w ++ new /\
               length new = length (of_kind ClaimEnd segs) /\
               Forall (fun c => n0 <= data c) new) /\
  (forall i, i < n0 -> heap w' !! i = heap w !! i).
Proof.
  revert l w. induction segs as [|s segs IH]; intros l w Hl Hh Hrun.
  - unfold classify in Hrun; simpl in Hrun. unfold ret in Hrun. simplify_eq.
    unfold of_kind. rewrite !filter_nil, !app_nil_r.
    repeat split; try done. exists []. by rewrite app_nil_r.
  - rewrite classify_cons in Hrun.
    apply bind_ok_inv in Hrun as (l1 & w1 & Hstep & Hrest).
    apply (parse_segment_collects n0) in Hstep
      as ((Hl1 & Hh1) & Hhd1 & Hft1 & (new1 & Hc1 & Hn1 & Hd1) & Hold1);
      [|done..].
    apply IH in Hrest as (Hhd & Hft & (new & Hc & Hn & Hd) & Hold); [|done..].
    rewrite !(of_kind_cons _ s segs).
    rewrite !of_kind_cons in Hhd1, Hft1, Hn1. unfold of_kind in Hhd1, Hft1, Hn1.
    rewrite !filter_nil, !app_nil_r in Hhd1, Hft1, Hn1.
    split; [by rewrite Hhd, Hhd1, <- app_assoc|].
    split; [by rewrite Hft, Hft1, <- app_assoc|].
    split.
    + exists (new1 ++ new). split; [by rewrite Hc, Hc1, <- app_assoc|].
      split; [|by apply Forall_app]. rewrite !length_app. lia.
    + intros i Hi. rewrite Hold, Hold1; done.
Qed.

(** X11. When [parse_input_file] completes, the globals were only
    appended to: [header] got the segments of the file that start with
    ISA or GS and [footer] those that start with GE or IEA, each in file
    order and wherever they stand in the file, and [claims] got one
    claim for each claim-end segment, paired with a claim-start segment
    or not.  What the globals held before is still there: the claims of
    an earlier parse keep their place in [claims] and their list
    objects are not changed, and the new claims are over new list
    objects; a second parse in one process adds to the first. *)
Theorem parse_appends_to_globals env filename content w w' :
  open_r env filename = Opened content ->
  parse_input_file env filename w = (Ok tt, w') ->
  header w' = header w ++ of_kind HeaderSegment (segments_of content) /\
  footer w' = footer w ++ of_kind FooterSegment (segments_of content) /\
  (exists new,
     claims w' = claims w ++ new /\
     length new = length (of_kind ClaimEnd (segments_of content)) /\
     Forall (fun c => length (heap w) <= data c) new) /\
  (forall i, i < length (heap w) -> heap w' !! i = heap w !! i).
Proof.
  intros Ho Hrun.
  apply parse_input_file_ok_inv in Hrun as (content' & l' & Ho' & _ & Hcl).
  rewrite Ho in Ho'. simplify_eq.
  apply (classify_collects (length (heap w))) in Hcl
    as (Hh & Hf & (new & Hc & Hn & Hd) & Hold);
    [|cbn; rewrite ?length_app; cbn; lia..].
  cbn [header footer claims heap set_heap] in Hh, Hf, Hc, Hold.
  unfold segments_of. rewrite !of_kind_truthy by done.
  split; [done|]. split; [done|]. split.
  - by exists new.
  - intros i Hi. rewrite Hold by done. by rewrite lookup_app_l.
Qed.

Lemma parse_appends_to_globals_witness :
  let env := one_file "in.edi" two_claims in
  let w := snd (parse_input_file env "in.edi" (snd (init World0))) in
  let w' := snd (parse_input_file env "in.edi" w) in
  header w' = header w ++ of_kind HeaderSegment (segments_of two_claims) /\
  footer w' = footer w ++ of_kind FooterSegment (segments_of two_claims) /\
  (exists new,
     claims w' = claims w ++ new /\
     length new = length (of_kind ClaimEnd (segments_of two_claims)) /\
     Forall (fun c => length (heap w) <= data c) new) /\
  (forall i, i < length (heap w) -> heap w' !! i = heap w !! i).
Proof.
  intros env w w'.
  apply (parse_appends_to_globals env "in.edi" two_claims w w');
    [reflexivity | vm_compute; reflexivity].
Defined.

(** The example, computed: the second parse of the file doubles the
    header and the claims, and the two claims of the first parse are
    still the first two, with the segments they had. *)
Example parse_twice :
  let env := one_file "in.edi" two_claims in
  let w := snd (parse_input_file env "in.edi" (snd (init World0))) in
  let w' := snd (parse_input_file env "in.edi" w) in
  header w' = ["ISA*00"; "GS*HC"; "ISA*00"; "GS*HC"] /\
  map claim_type (claims w') = [Some CE; Some CF; Some CE; Some CF] /\
  map (fun c => deref w' (data c)) (claims w) =
    [["ST*837*0001"; "BHT*0019*00*CE0001*20220101*1200"; "SE*3*0001"];
     ["ST*837*0002"; "BHT*0019*00*CF0002*20220101*1201"; "SE*3*0002"]].
Proof. vm_compute. by repeat split. Qed.

(** ** When the parse completes *)

Lemma is_typed_spec l : is_typed l = true <-> is_Some (cur_claim_type l).
Proof.
  unfold is_typed. destruct (cur_claim_type l); split; intros H; try done.
Qed.

Lemma parse_segment_counts_keyed s l w r w' :
  counts_keyed w -> parse_segment s l w = (r, w') -> counts_keyed w'.
Proof.
  intros [Hn Hk] Hstep. split.
  - eapply parse_segment_no_None_key; eauto.
  - intros t. eapply parse_segment_keeps_keys; eauto.
Qed.

Lemma classify_resolves segs l w :
  counts_keyed w ->
  (exists l' w', classify segs l w = (Ok l', w')) <->
  types_resolve (is_typed l) segs = true.
Proof.
  revert l w. induction segs as [|s segs IH]; intros l w Hkeyed.
  { split; [done|]. intros _. by exists l, w. }
  rewrite classify_cons. cbn [types_resolve]. unfold bind.
  destruct (parse_segment s l w) as [r w1] eqn:Hstep.
  pose proof (parse_segment_counts_keyed _ _ _ _ _ Hkeyed Hstep) as Hkeyed1.
  destruct Hkeyed as [Hn Hk].
  step_cases s Hstep.
  - simplify_eq. by apply IH.
  - simplify_eq. by apply IH.
  - simplify_eq. by apply IH.
  - simplify_eq. by rewrite (IH _ _ Hkeyed1).
  - unfold is_typed in *. destruct (cur_claim_type l) as [t|] eqn:Ht.
    + destruct (Hk t) as [n Hcount]. rewrite Hcount in Hstep. simplify_eq.
      rewrite (IH _ _ Hkeyed1). unfold is_typed. by rewrite Ht.
    + rewrite Hn in Hstep. simplify_eq.
      split; [by intros (? & ? & ?) | done].
  - destruct (Py.split s ELEMENT_DELIMITER !! CLAIM_TYPE_ELEMENT_NUM);
      [|simplify_eq; split; [by intros (? & ? & ?) | done]].
    destruct (ClaimType_getitem _);
      [|simplify_eq; split; [by intros (? & ? & ?) | done]].
    simplify_eq. by rewrite (IH _ _ Hkeyed1).
  - simplify_eq. by apply IH.
Qed.

Lemma types_resolve_truthy typed segs :
  types_resolve typed (filter (fun s => Py.truthy s = true) segs)
  = types_resolve typed segs.
Proof.
  revert typed. induction segs as [|s segs IH]; intros typed; [reflexivity|].
  rewrite filter_cons. destruct (decide (Py.truthy s = true)) as [Ht|Ht].
  - cbn [types_resolve]. by rewrite !IH.
  - rewrite IH. cbn [types_resolve].
    replace (kind_of s) with EmptySegment; [reflexivity|].
    unfold kind_of. by destruct (Py.truthy s).
Qed.

(** X12. With the keys of [claim_counts] as [init] makes them, and for
    a file that is opened and read as the text [content] (its bytes
    decode), [parse_input_file] completes exactly when the reader raises
    no error on that text, every BHT segment has an element 3 whose
    first two characters name a claim type, and every claim-end segment
    comes after such a BHT segment. *)
Theorem parse_completes_iff env filename content w :
  open_r env filename = Opened content ->
  counts_keyed w ->
  fst (parse_input_file env filename w) = Ok tt <->
  snd (Csv.reader content) = false /\
  types_resolve false (segments_of content) = true.
Proof.
  intros Ho Hkeyed. unfold segments_of. rewrite types_resolve_truthy.
  rewrite (parse_input_file_opened _ _ _ _ Ho).
  assert (counts_keyed (set_heap w (heap w ++ [[]]))) as Hkeyed' by done.
  pose proof (classify_resolves (concat (fst (Csv.reader content)))
                {| cur_claim_data := length (heap w); cur_claim_type := None |}
                _ Hkeyed') as Hres.
  change (is_typed _) with false in Hres. rewrite <- Hres.
  unfold bind.
  destruct (classify _ _ _) as [[l1|e|c] w1].
  - destruct (snd (Csv.reader content)); cbn.
    + split; [done | by intros [? _]].
    + split; [by eauto | done].
  - cbn. split; [done | by intros [_ (? & ? & ?)]].
  - cbn. split; [done | by intros [_ (? & ? & ?)]].
Qed.

Lemma parse_completes_iff_witness :
  let env := one_file "in.edi" two_claims in
  fst (parse_input_file env "in.edi" (snd (init World0))) = Ok tt <->
  snd (Csv.reader two_claims) = false /\
  types_resolve false (segments_of two_claims) = true.
Proof.
  intros env.
  apply (parse_completes_iff env "in.edi" two_claims (snd (init World0))).
  - reflexivity.
  - split; [reflexivity|]. intros t. rewrite init_spec.
    cbn [snd claim_counts set_claim_counts]. destruct t.
    + rewrite lookup_insert_ne, lookup_insert_eq by done. by eexists.
    + rewrite lookup_insert_eq. by eexists.
Defined.

(** ** The list object of a sealed claim *)

(** X13. The list of a sealed claim stays the current buffer until the
    next claim-start segment: plain segments read after the claim-end
    segment are appended to the data of the claim that was sealed, and
    no new claim is made for them. *)
Theorem sealed_claim_keeps_growing se extra l w l' w1 :
  Py.startswith se CLAIM_END_SEGMENT = true ->
  cur_claim_data l < length (heap w) ->
  parse_segment se l w = (Ok l', w1) ->
  Forall (fun s => kind_of s = ClaimOther) extra ->
  exists w2,
    classify extra l' w1 = (Ok l', w2) /\
    claims w2 = claims w ++ [{| claim_type := cur_claim_type l;
                                data := cur_claim_data l |}] /\
    deref w1 (cur_claim_data l) = deref w (cur_claim_data l) ++ [se] /\
    deref w2 (cur_claim_data l) = deref w (cur_claim_data l) ++ se :: extra.
Proof.
  intros Hse Hv Hstep Hextra. apply kind_of_claim_end in Hse.
  rewrite parse_segment_claim_end in Hstep by done.
  destruct (claim_counts w !! cur_claim_type l) as [n|]; [|discriminate].
  simplify_eq.
  destruct (lookup_lt_is_Some_2 _ _ Hv) as [d Hd].
  eexists. split; [apply classify_claim_other; exact Hextra|].
  split; [reflexivity|]. unfold deref. cbn [heap set_heap set_claim_counts sealed
                                             set_claims appended].
  rewrite list_alter_alter_eq, !list_lookup_alter_eq, Hd. cbn.
  split; [reflexivity|]. by rewrite <- app_assoc.
Qed.

Lemma sealed_claim_keeps_growing_witness :
  let l := {| cur_claim_data := 0; cur_claim_type := Some CE |} in
  let w := set_heap (snd (init World0)) [["ST*837*0001"; "BHT*0019*00*CE0001"]] in
  exists w2,
    classify ["NM1*41"; "CLM*1"] l (snd (parse_segment "SE*3*0001" l w)) = (Ok l, w2) /\
    claims w2 = claims w ++ [{| claim_type := Some CE; data := 0 |}] /\
    deref (snd (parse_segment "SE*3*0001" l w)) 0 = deref w 0 ++ ["SE*3*0001"] /\
    deref w2 0 = deref w 0 ++ ["SE*3*0001"; "NM1*41"; "CLM*1"].
Proof.
  intros l w.
  apply (sealed_claim_keeps_growing "SE*3*0001" ["NM1*41"; "CLM*1"] l w l
           (snd (parse_segment "SE*3*0001" l w))).
  - reflexivity.
  - simpl. lia.
  - vm_compute. reflexivity.
  - repeat constructor.
Defined.

(** ** A claim that is never closed *)

Lemma parse_segment_claims_allocated s l w r w' :
  cur_claim_data l < length (heap w) -> claims_allocated w ->
  parse_segment s l w = (r, w') -> claims_allocated w'.
Proof.
  intros Hv Hall Hstep. unfold claims_allocated in *.
  destruct (parse_segment_frame _ _ _ _ _ Hstep) as (Hlen & (new & -> & Hnew) & _).
  apply Forall_app. split.
  - eapply Forall_impl; [exact Hall|]. intros c Hc. simpl in Hc. lia.
  - eapply Forall_impl; [exact Hnew|]. intros c Hc. simpl in Hc. lia.
Qed.

Lemma classify_claims_allocated segs l w l' w' :
  cur_claim_data l < length (heap w) -> claims_allocated w ->
  classify segs l w = (Ok l', w') -> claims_allocated w'.
Proof.
  revert l w. induction segs as [|s segs IH]; intros l w Hv Hall Hrun.
  - unfold classify in Hrun; simpl in Hrun. unfold ret in Hrun. by simplify_eq.
  - rewrite classify_cons in Hrun.
    apply bind_ok_inv in Hrun as (l1 & w1 & Hstep & Hrest).
    eapply IH; [| |exact Hrest].
    + eapply parse_segment_buffer_valid; eauto.
    + eapply parse_segment_claims_allocated; eauto.
Qed.

Lemma claims_text_ext w w' t cs :
  Forall (fun c => deref w' (data c) = deref w (data c)) cs ->
  claims_text w' t cs = claims_text w t cs.
Proof.
  induction 1 as [|c cs Hc _ IH]; [reflexivity|].
  cbn [claims_text]. by rewrite Hc, IH.
Qed.

(** X14. A claim that is opened and never closed is dropped without
    an error: a claim-start segment and plain segments at the end of the
    input, with no claim-end segment after them, leave the header, the
    footer, the claims with their data and the counts as they would be
    without them, and so every output file. *)
Theorem trailing_open_claim_is_dropped segs st body l w l1 w1 :
  cur_claim_data l < length (heap w) -> claims_allocated w ->
  classify segs l w = (Ok l1, w1) ->
  Py.startswith st CLAIM_START_SEGMENT = true ->
  Forall (fun s => kind_of s = ClaimOther) body ->
  exists l2 w2,
    classify (segs ++ st :: body) l w = (Ok l2, w2) /\
    header w2 = header w1 /\ footer w2 = footer w1 /\
    claims w2 = claims w1 /\ claim_counts w2 = claim_counts w1 /\
    Forall (fun c => deref w2 (data c) = deref w1 (data c)) (claims w1) /\
    forall t n, expected_output w2 t n = expected_output w1 t n.
Proof.
  intros Hv Hall Hrun Hst Hbody. apply kind_of_claim_start in Hst.
  pose proof (classify_claims_allocated _ _ _ _ _ Hv Hall Hrun) as Hall1.
  eexists _, _. split.
  { rewrite classify_app, (bind_ok _ _ _ _ _ Hrun).
    rewrite classify_cons, (bind_ok _ _ _ _ _ (parse_segment_claim_start _ _ _ Hst)).
    apply classify_claim_other. exact Hbody. }
  do 4 (split; [reflexivity|]).
  match goal with
  | |- Forall (fun c => deref ?W0 _ = _) _ /\ _ => set (W := W0)
  end.
  assert (Forall (fun c => deref W (data c) = deref w1 (data c)) (claims w1))
    as Hderef.
  { eapply Forall_impl; [exact Hall1|]. intros c Hc. simpl in Hc.
    unfold deref, W. cbn [heap set_heap cur_claim_data].
    rewrite list_lookup_alter_ne by lia. by rewrite lookup_app_l by lia. }
  split; [exact Hderef|].
  intros t n. unfold expected_output.
  change (header W) with (header w1). change (footer W) with (footer w1).
  change (claims W) with (claims w1).
  by rewrite (claims_text_ext w1 W t _ Hderef).
Qed.

Lemma trailing_open_claim_is_dropped_witness :
  let l := {| cur_claim_data := 0; cur_claim_type := None |} in
  let w := set_heap (snd (init World0)) [[]] in
  let segs := ["ISA*00"; "ST*837*0001"; "BHT*0019*00*CE0001"; "SE*3*0001"; "GE*1*1"] in
  let w1 := snd (classify segs l w) in
  exists l2 w2,
    classify (segs ++ "ST*837*0002" :: ["NM1*41"]) l w = (Ok l2, w2) /\
    header w2 = header w1 /\ footer w2 = footer w1 /\
    claims w2 = claims w1 /\ claim_counts w2 = claim_counts w1 /\
    Forall (fun c => deref w2 (data c) = deref w1 (data c)) (claims w1) /\
    forall t n, expected_output w2 t n = expected_output w1 t n.
Proof.
  intros l w segs w1.
  apply (trailing_open_claim_is_dropped segs "ST*837*0002" ["NM1*41"] l w
           {| cur_claim_data := 1; cur_claim_type := Some CE |} w1).
  - simpl. lia.
  - constructor.
  - vm_compute. reflexivity.
  - reflexivity.
  - repeat constructor.
Defined.

(** ** Splitting and joining *)

Lemma fragments_pieces_no_sep sep s :
  Forall (fun f => any_char sep f = false) (Py.fragments sep s).
Proof.
  induction s as [|c s IH]; [by repeat constructor|].
  cbn [Py.fragments]. destruct (sep c) eqn:Hc.
  - by constructor.
  - destruct (Py.fragments sep s) as [|f fs]; [by repeat constructor; cbn; rewrite Hc|].
    apply Forall_cons in IH as [Hf Hfs]. constructor; [|done].
    cbn [any_char]. by rewrite Hc, Hf.
Qed.

Lemma fragments_none sep s :
  any_char sep s = false -> Py.fragments sep s = [s].
Proof.
  induction s as [|c s IH]; [done|]. cbn [any_char]. intros H.
  apply orb_false_iff in H as [Hc Hs]. cbn [Py.fragments].
  by rewrite Hc, (IH Hs).
Qed.

Lemma fragments_app_sep sep a c b :
  sep c = true ->
  Py.fragments sep (a +:+ String c b) = Py.fragments sep a ++ Py.fragments sep b.
Proof.
  intros Hc. induction a as [|x a IH].
  - change (EmptyString +:+ String c b) with (String c b).
    by rewrite fragments_end.
  - change (String x a +:+ String c b) with (String x (a +:+ String c b)).
    cbn [Py.fragments]. rewrite IH.
    destruct (sep x); [reflexivity|].
    by destruct (fragments_cons sep a) as (f & fs & ->).
Qed.

Lemma concat_cons2 c x y l :
  String.concat (String c EmptyString) (x :: y :: l)
  = x +:+ String c (String.concat (String c EmptyString) (y :: l)).
Proof. reflexivity. Qed.

Lemma fragments_join sep c l :
  sep c = true -> l <> [] ->
  Forall (fun f => any_char sep f = false) l ->
  Py.fragments sep (String.concat (String c EmptyString) l) = l.
Proof.
  intros Hc Hne Hall. induction Hall as [|x l Hx Hl IH]; [done|].
  destruct l as [|y l].
  - by apply fragments_none.
  - rewrite concat_cons2, fragments_app_sep by done.
    rewrite (fragments_none _ _ Hx), IH by done. reflexivity.
Qed.

Lemma join_fragments c s :
  String.concat (String c EmptyString) (Py.fragments (Ascii.eqb c) s) = s.
Proof.
  induction s as [|x s IH]; [reflexivity|].
  cbn [Py.fragments].
  destruct (fragments_cons (Ascii.eqb c) s) as (f & fs & Hf).
  rewrite Hf in *.
  destruct (Ascii.eqb_spec c x) as [<-|Hx].
  - rewrite concat_cons2, IH. reflexivity.
  - destruct fs as [|g fs].
    + cbn in IH. cbn. by rewrite IH.
    + rewrite concat_cons2 in *.
      change (String x f +:+ ?r) with (String x (f +:+ r)). by rewrite IH.
Qed.

Lemma string_of_uint_digits p d :
  (forall c, p c = true -> Ascii.ltb c "0" = true \/ Ascii.ltb "9" c = true) ->
  any_char p (NilEmpty.string_of_uint d) = false.
Proof.
  intros Hp. induction d; cbn [NilEmpty.string_of_uint any_char];
    rewrite ?IHd; try reflexivity;
    match goal with
    | |- p ?c || false = false =>
        rewrite orb_false_r; destruct (p c) eqn:Hc; [|reflexivity];
        apply Hp in Hc; vm_compute in Hc; by destruct Hc
    end.
Qed.

(** The decimal string of a count has no ['*']. *)
Lemma str_no_element_delimiter n :
  any_char (Ascii.eqb ELEMENT_DELIMITER) (Py.str n) = false.
Proof.
  assert (forall d, any_char (Ascii.eqb ELEMENT_DELIMITER)
                      (NilEmpty.string_of_uint d) = false) as Hd.
  { intros d. apply string_of_uint_digits. intros c Hc.
    apply Ascii.eqb_eq in Hc as <-. by left. }
  unfold Py.str, NilZero.string_of_uint.
  destruct (N.to_uint n) eqn:Hn; try (rewrite <- Hn; apply Hd); reflexivity.
Qed.

(** X15. For a GE segment with an element 1, [write_output_file]
    writes the delimiter and a segment that differs from the one read
    in its element 1 only, which is the decimal count: split on ['*']
    again it gives the same elements with the count at index 1, and a
    segment that carried this count already is written as it was
    read. *)
Theorem footer_count_rewrite fn t w F c n segment :
  claim_counts w !! Some t = Some n ->
  Py.startswith segment FOOTER_CLAIM_COUNT_SEGMENT = true ->
  1 < length (Py.split segment ELEMENT_DELIMITER) ->
  exists written,
    write_footer_segment fn t segment (writing fn w F c)
      = (Ok tt, writing fn w F (c +:+ SEGMENT_DELIMITER +:+ written)) /\
    Py.split written ELEMENT_DELIMITER
      = <[CLAIM_COUNT_ELEMENT_NUM := Py.str n]> (Py.split segment ELEMENT_DELIMITER) /\
    (Py.split segment ELEMENT_DELIMITER !! CLAIM_COUNT_ELEMENT_NUM = Some (Py.str n) ->
     written = segment).
Proof.
  intros Hn Hge Hlen.
  exists (Py.join (String ELEMENT_DELIMITER EmptyString)
            (<[CLAIM_COUNT_ELEMENT_NUM := Py.str n]> (Py.split segment ELEMENT_DELIMITER))).
  split; [|split].
  - unfold write_footer_segment. unfold bind at 1. rewrite fh_write_writing.
    rewrite Hge. unfold bind at 1 2, counts_getitem at 1. simpl claim_counts.
    rewrite Hn. unfold list_setitem. rewrite decide_True by exact Hlen.
    unfold ret at 1. rewrite fh_write_writing. by rewrite !string_app_assoc.
  - unfold Py.join, Py.split. apply fragments_join.
    + apply Ascii.eqb_refl.
    + intros Hnil. apply (f_equal length) in Hnil.
      rewrite length_insert in Hnil. unfold Py.split in Hlen. simpl in Hnil. lia.
    + apply Forall_insert; [apply fragments_pieces_no_sep|].
      apply str_no_element_delimiter.
  - intros Hel. rewrite list_insert_id by exact Hel.
    unfold Py.join, Py.split. apply join_fragments.
Qed.

Lemma footer_count_rewrite_witness :
  let w := snd (init World0) in
  exists written,
    write_footer_segment "out/in_CE.edi" CE "GE*0*1" (writing "out/in_CE.edi" w ∅ "ISA*00")
      = (Ok tt, writing "out/in_CE.edi" w ∅ ("ISA*00" +:+ SEGMENT_DELIMITER +:+ written)) /\
    Py.split written ELEMENT_DELIMITER
      = <[CLAIM_COUNT_ELEMENT_NUM := Py.str 0]> (Py.split "GE*0*1" ELEMENT_DELIMITER) /\
    (Py.split "GE*0*1" ELEMENT_DELIMITER !! CLAIM_COUNT_ELEMENT_NUM = Some (Py.str 0) ->
     written = "GE*0*1").
Proof.
  intros w.
  apply (footer_count_rewrite "out/in_CE.edi" CE w ∅ "ISA*00" 0%N "GE*0*1").
  - vm_compute. reflexivity.
  - reflexivity.
  - vm_compute. lia.
Defined.

(** ** The name of an output file *)

Lemma prefix_empty s : String.prefix EmptyString s = true.
Proof. by destruct s. Qed.

Lemma substring_all s : substring 0 (String.length s) s = s.
Proof. induction s as [|c s IH]; [reflexivity|]. simpl. by rewrite IH. Qed.

(** X16. [split] cuts the base name of the input at its first period:
    the part before it has no period, the part from it on starts with
    the period, and the two parts put together are the base name.  The
    name of the claim type is so inserted before the first period, and
    the name without it is the name of the input. *)
Theorem filename_parts s i :
  Py.index s "." = Some i ->
  Py.slice_to s i +:+ Py.slice_from s i = s /\
  occurs "." (Py.slice_to s i) = false /\
  Py.startswith (Py.slice_from s i) "." = true.
Proof.
  unfold Py.index, Py.slice_to, Py.slice_from, Py.startswith.
  revert i. induction s as [|b s IH]; intros i Hi; [discriminate|].
  cbn [String.index] in Hi. cbn [String.prefix] in Hi.
  destruct (ascii_dec "." b) as [<-|Hb].
  - rewrite prefix_empty in Hi. injection Hi as <-.
    rewrite Nat.sub_0_r, substring_all. cbn [substring].
    split; [reflexivity|]. split; [reflexivity|].
    cbn. destruct (ascii_dec "." "."); [apply prefix_empty | done].
  - destruct (String.index 0 "." s) as [j|] eqn:Hj; [|discriminate].
    injection Hi as <-. destruct (IH j eq_refl) as (H1 & H2 & H3).
    cbn [substring String.length Nat.sub].
    change (String b ?x +:+ ?y) with (String b (x +:+ y)).
    rewrite H1. split; [reflexivity|]. split; [|exact H3].
    cbn [occurs]. rewrite H2, orb_false_r.
    apply Ascii.eqb_neq. congruence.
Qed.

Lemma filename_parts_witness :
  Py.slice_to "in.x.edi" 2 +:+ Py.slice_from "in.x.edi" 2 = "in.x.edi" /\
  occurs "." (Py.slice_to "in.x.edi" 2) = false /\
  Py.startswith (Py.slice_from "in.x.edi" 2) "." = true.
Proof. apply (filename_parts "in.x.edi" 2). reflexivity. Defined.

(** ** A field in double quotes *)

Lemma universal_newlines_id s :
  occurs Csv.CR s = false -> Csv.universal_newlines s = s.
Proof.
  induction s as [|c s IH]; [done|]. cbn [occurs]. intros H.
  apply orb_false_iff in H as [Hc Hs].
  rewrite universal_newlines_cons, Hc. by rewrite (IH Hs).
Qed.

Lemma readlines_nonempty c s : Csv.readlines (String c s) <> [].
Proof.
  cbn [Csv.readlines]. destruct (Ascii.eqb c Csv.LF); [done|].
  by destruct (Csv.readlines s).
Qed.

Lemma reader_rest_nonempty r s :
  s <> EmptyString -> reader_rest r s = Csv.reader_from r (Csv.readlines s).
Proof.
  destruct s as [|c s]; [done|]. intros _. unfold reader_rest.
  pose proof (readlines_nonempty c s).
  by destruct (Csv.readlines (String c s)).
Qed.

Lemma in_quoted_char fs cur c :
  Ascii.eqb c Csv.QUOTECHAR = false ->
  (N.of_nat (String.length cur) < Csv.field_limit)%N ->
  Csv.parse_process_char (in_record Csv.IN_QUOTED_FIELD fs cur) (Some c) =
    Some (in_record Csv.IN_QUOTED_FIELD fs (cur +:+ String c EmptyString)).
Proof.
  intros Hq Hlen.
  assert ((Csv.field_limit <=? N.of_nat (String.length cur))%N = false) as Hlim
    by (apply N.leb_gt; exact Hlen).
  assert (N.of_nat (String.length (cur +:+ String c EmptyString))
          = (N.of_nat (String.length cur) + 1)%N) as Hl.
  { rewrite string_length_app. simpl. lia. }
  unfold in_record. rewrite Hl.
  unfold Csv.parse_process_char; cbn [Csv.state]. rewrite Hq.
  unfold Csv.parse_add_char; cbn [Csv.field_len]. by rewrite Hlim.
Qed.

Lemma in_quoted_closing fs cur :
  reader_rest (in_record Csv.IN_QUOTED_FIELD fs cur)
    (String Csv.QUOTECHAR EmptyString) = ([fs ++ [cur]], false).
Proof. reflexivity. Qed.

Lemma in_quoted_rest body :
  forall fs cur,
    occurs Csv.QUOTECHAR body = false ->
    (N.of_nat (String.length cur + String.length body) <= Csv.field_limit)%N ->
    reader_rest (in_record Csv.IN_QUOTED_FIELD fs cur)
      (body +:+ String Csv.QUOTECHAR EmptyString)
    = ([fs ++ [cur +:+ body]], false).
Proof.
  induction body as [|c body IH]; intros fs cur Hq Hlen.
  - rewrite string_app_nil_r. apply in_quoted_closing.
  - cbn [occurs] in Hq. apply orb_false_iff in Hq as [Hc Hq].
    cbn [String.length] in Hlen.
    change (String c body +:+ ?r) with (String c (body +:+ r)).
    assert (Csv.parse_process_char (in_record Csv.IN_QUOTED_FIELD fs cur) (Some c) =
            Some (in_record Csv.IN_QUOTED_FIELD fs (cur +:+ String c EmptyString)))
      as Hstep by (apply in_quoted_char; [done | lia]).
    assert (reader_rest (in_record Csv.IN_QUOTED_FIELD fs (cur +:+ String c EmptyString))
              (body +:+ String Csv.QUOTECHAR EmptyString)
            = ([fs ++ [cur +:+ String c body]], false)) as Hrest.
    { rewrite IH; [|done|rewrite string_length_app; simpl; lia].
      by rewrite string_app_assoc. }
    destruct (Ascii.eqb_spec c Csv.LF) as [->|Hlf].
    + rewrite reader_rest_LF. cbn [Csv.reader_from Csv.parse_line].
      rewrite Hstep. cbn [Csv.parse_process_char Csv.state in_record].
      rewrite bool_decide_eq_false_2 by done.
      rewrite <- reader_rest_nonempty by (by destruct body).
      exact Hrest.
    + apply Ascii.eqb_neq in Hlf. rewrite reader_rest_char by done.
      rewrite Hstep. exact Hrest.
Qed.

(** X17. A double quote at the start of a segment opens a quoted field
    of the reader: up to the closing quote, delimiters and line feeds
    are characters of the segment, and the two quotes are not.  Content
    that is one such field is read as the one segment between the
    quotes. *)
Theorem quoted_segment body :
  occurs Csv.QUOTECHAR body = false ->
  occurs Csv.CR body = false ->
  within_field_limit body ->
  Csv.reader (String Csv.QUOTECHAR (body +:+ String Csv.QUOTECHAR EmptyString))
    = ([[body]], false).
Proof.
  intros Hq Hcr Hlim. unfold Csv.reader.
  rewrite universal_newlines_id.
  2:{ cbn [occurs]. change (Ascii.eqb Csv.QUOTECHAR Csv.CR) with false.
      cbn [orb]. clear Hq Hlim.
      induction body as [|c body IH]; [reflexivity|].
      cbn [occurs] in Hcr. apply orb_false_iff in Hcr as [Hc Hcr].
      change (String c body +:+ ?r) with (String c (body +:+ r)).
      cbn [occurs]. by rewrite Hc, IH. }
  rewrite reader_from_char by reflexivity.
  change (Csv.parse_process_char Csv.parse_reset (Some Csv.QUOTECHAR))
    with (Some (in_record Csv.IN_QUOTED_FIELD [] EmptyString)).
  cbv beta iota. apply (in_quoted_rest body [] EmptyString Hq). exact Hlim.
Qed.

Lemma quoted_segment_witness :
  Csv.reader (String Csv.QUOTECHAR
                (("NTE*a~b" +:+ newline +:+ "c") +:+ String Csv.QUOTECHAR EmptyString))
    = ([["NTE*a~b" +:+ newline +:+ "c"]], false).
Proof.
  apply (quoted_segment ("NTE*a~b" +:+ newline +:+ "c")).
  - reflexivity.
  - reflexivity.
  - vm_compute. discriminate.
Defined.

(** ** Reading an output file back *)

Lemma tokenization_pieces content :
  occurs Csv.QUOTECHAR content = false ->
  Forall within_field_limit (Py.fragments is_segment_end content) ->
  snd (Csv.reader content) = false /\
  segments_of content = nonempty (Py.fragments is_segment_end content).
Proof.
  intros Hq Hlim. rewrite segments_of_tokens. unfold Csv.reader.
  destruct (reader_pieces (Csv.universal_newlines content)) as [Hstart _].
  { apply universal_newlines_no_CR. }
  { by apply universal_newlines_occurs. }
  destruct (Hstart (within_field_limit_universal_newlines _ Hlim)) as [Herr Htok].
  split; [exact Herr|]. rewrite Htok.
  destruct (universal_newlines_fragments content) as (f & fs & fs' & -> & -> & Hne).
  unfold nonempty in *. by rewrite !filter_cons, Hne.
Qed.

Lemma nonempty_plain l : Forall plain_segment l -> nonempty l = l.
Proof.
  induction 1 as [|s l (Ht & _) _ IH]; [reflexivity|].
  unfold nonempty in *. rewrite filter_cons, decide_True by done. by rewrite IH.
Qed.

Lemma pieces_app_delimiter a b :
  nonempty (Py.fragments is_segment_end (a +:+ String "~" b)) =
    nonempty (Py.fragments is_segment_end a)
    ++ nonempty (Py.fragments is_segment_end b).
Proof. rewrite fragments_app_sep by reflexivity. apply nonempty_app. Qed.

Lemma pieces_join l :
  Forall plain_segment l ->
  nonempty (Py.fragments is_segment_end (Py.join "~" l)) = l.
Proof.
  intros Hl. destruct l as [|x l]; [reflexivity|].
  unfold Py.join. rewrite fragments_join; [by apply nonempty_plain|reflexivity|done|].
  eapply Forall_impl; [exact Hl|]. by intros s (_ & ? & _).
Qed.

Lemma pieces_claims_text w t cs : forall a,
  Forall (fun c => Forall plain_segment (deref w (data c))) (claims_of_type t cs) ->
  nonempty (Py.fragments is_segment_end (a +:+ claims_text w t cs)) =
    nonempty (Py.fragments is_segment_end a)
    ++ concat (map (fun c => deref w (data c)) (claims_of_type t cs)).
Proof.
  induction cs as [|c cs IH]; intros a Hall.
  - cbn. by rewrite string_app_nil_r, app_nil_r.
  - cbn [claims_text]. unfold claims_of_type in *. rewrite filter_cons in *.
    destruct (decide (claim_type c = Some t)).
    + apply Forall_cons in Hall as [Hc Hall].
      rewrite <- string_app_assoc.
      change (a +:+ ("~" +:+ ?d)) with (a +:+ String "~" d).
      rewrite IH by done. rewrite pieces_app_delimiter, pieces_join by done.
      cbn [map concat]. by rewrite <- app_assoc.
    + change (EmptyString +:+ ?r) with r. by apply IH.
Qed.

Lemma pieces_footer_text n segments : forall a,
  Forall plain_segment (map (footer_segment_text n) segments) ->
  nonempty (Py.fragments is_segment_end (a +:+ footer_text n segments)) =
    nonempty (Py.fragments is_segment_end a)
    ++ map (footer_segment_text n) segments.
Proof.
  induction segments as [|s segments IH]; intros a Hall.
  - cbn. by rewrite string_app_nil_r, app_nil_r.
  - cbn [footer_text map] in *. apply Forall_cons in Hall as [Hs Hall].
    change ("~" +:+ ?x +:+ ?r) with (String "~" (x +:+ r)).
    replace (a +:+ String "~" (footer_segment_text n s +:+ footer_text n segments))
      with ((a +:+ String "~" (footer_segment_text n s)) +:+ footer_text n segments)
      by (rewrite string_app_assoc; reflexivity).
    rewrite IH by done. rewrite pieces_app_delimiter.
    destruct Hs as (Ht & Hsep & _).
    rewrite (fragments_none _ _ Hsep). unfold nonempty at 2.
    rewrite filter_cons, decide_True, filter_nil by done.
    by rewrite <- app_assoc.
Qed.

Lemma occurs_app x a b : occurs x (a +:+ b) = occurs x a || occurs x b.
Proof.
  induction a as [|c a IH]; [reflexivity|].
  change (String c a +:+ b) with (String c (a +:+ b)). cbn [occurs].
  by rewrite IH, orb_assoc.
Qed.

Lemma occurs_join x l :
  Ascii.eqb "~" x = false ->
  Forall (fun s => occurs x s = false) l -> occurs x (Py.join "~" l) = false.
Proof.
  intros Hx. induction 1 as [|s l Hs Hl IH]; [reflexivity|].
  destruct l as [|y l]; [exact Hs|].
  unfold Py.join in *. rewrite concat_cons2, occurs_app. cbn [occurs].
  by rewrite Hs, Hx, IH.
Qed.

Lemma occurs_claims_text x w t cs :
  Ascii.eqb "~" x = false ->
  Forall (fun c => Forall (fun s => occurs x s = false) (deref w (data c)))
         (claims_of_type t cs) ->
  occurs x (claims_text w t cs) = false.
Proof.
  intros Hx. induction cs as [|c cs IH]; intros Hall; [reflexivity|].
  cbn [claims_text]. unfold claims_of_type in *. rewrite filter_cons in Hall.
  rewrite occurs_app. destruct (decide (claim_type c = Some t)).
  - apply Forall_cons in Hall as [Hc Hall].
    change ("~" +:+ ?d) with (String "~" d). cbn [occurs].
    by rewrite Hx, occurs_join, IH.
  - by rewrite IH.
Qed.

Lemma occurs_footer_text x n segments :
  Ascii.eqb "~" x = false ->
  Forall (fun s => occurs x s = false) (map (footer_segment_text n) segments) ->
  occurs x (footer_text n segments) = false.
Proof.
  intros Hx. induction segments as [|s segments IH]; intros Hall; [reflexivity|].
  cbn [footer_text map] in *. apply Forall_cons in Hall as [Hs Hall].
  change ("~" +:+ ?r) with (String "~" r). cbn [occurs].
  by rewrite Hx, occurs_app, Hs, IH.
Qed.

Lemma Forall_from_nonempty (P : string -> Prop) l :
  P EmptyString -> Forall P (nonempty l) -> Forall P l.
Proof.
  intros H0 Hne. apply Forall_forall. intros s Hs.
  destruct s as [|c s]; [exact H0|].
  rewrite Forall_forall in Hne. apply Hne.
  unfold nonempty. by apply list_elem_of_filter.
Qed.

Lemma output_segments_split w t n :
  Forall plain_segment (output_segments w t n) ->
  Forall plain_segment (header w) /\
  Forall (fun c => Forall plain_segment (deref w (data c)))
         (claims_of_type t (claims w)) /\
  Forall plain_segment (map (footer_segment_text n) (footer w)).
Proof.
  unfold output_segments. rewrite !Forall_app.
  intros (Hh & Hc & Hf). split; [done|]. split; [|done].
  induction (claims_of_type t (claims w)) as [|c cs IH]; [constructor|].
  cbn [map concat] in Hc. apply Forall_app in Hc as [Hd Hc].
  constructor; auto.
Qed.

Lemma expected_output_pieces w t n :
  Forall plain_segment (output_segments w t n) ->
  nonempty (Py.fragments is_segment_end (expected_output w t n))
  = output_segments w t n.
Proof.
  intros Hall. destruct (output_segments_split _ _ _ Hall) as (Hh & Hc & Hf).
  unfold expected_output, output_segments.
  rewrite <- string_app_assoc.
  rewrite pieces_footer_text, pieces_claims_text, pieces_join by done.
  by rewrite <- app_assoc.
Qed.

Lemma expected_output_no_quote w t n :
  Forall plain_segment (output_segments w t n) ->
  occurs Csv.QUOTECHAR (expected_output w t n) = false.
Proof.
  intros Hall. destruct (output_segments_split _ _ _ Hall) as (Hh & Hc & Hf).
  unfold expected_output. rewrite !occurs_app.
  rewrite occurs_join, occurs_claims_text, occurs_footer_text; try reflexivity.
  - eapply Forall_impl; [exact Hf|]. by intros s (_ & _ & ? & _).
  - eapply Forall_impl; [exact Hc|]. intros c Hd.
    eapply Forall_impl; [exact Hd|]. by intros s (_ & _ & ? & _).
  - eapply Forall_impl; [exact Hh|]. by intros s (_ & _ & ? & _).
Qed.

(** X18. The file [write_output_file] writes for a claim type with
    claims is read back by the tokenization stage, without an error, as
    the header segments, the segments of the claims of the type in list
    order and the footer segments with the count, when these segments
    are plain: the writer and the reader agree on the delimiter. *)
Theorem written_file_tokenizes env output_dir t prefix suffix w n :
  claim_counts w !! Some t = Some n -> (0 < n)%N ->
  open_w env (output_filename env output_dir t prefix suffix) = None ->
  footer_has_counts (footer w) ->
  Forall plain_segment (output_segments w t n) ->
  exists content,
    files (snd (write_output_file env output_dir t prefix suffix w))
      !! output_filename env output_dir t prefix suffix = Some content /\
    snd (Csv.reader content) = false /\
    segments_of content = output_segments w t n.
Proof.
  intros Hn Hpos Ho Hfooter Hplain.
  exists (expected_output w t n). split.
  - rewrite (write_output_file_spec _ _ _ _ _ _ n) by done.
    apply N.ltb_lt in Hpos. rewrite Hpos. cbn [snd files set_files].
    apply lookup_insert_eq.
  - pose proof (expected_output_pieces _ _ _ Hplain) as Hpieces.
    destruct (tokenization_pieces (expected_output w t n)) as [Herr Hsegs].
    + by apply expected_output_no_quote.
    + apply Forall_from_nonempty; [unfold within_field_limit; simpl; lia|].
      rewrite Hpieces. eapply Forall_impl; [exact Hplain|].
      by intros s (_ & _ & _ & ?).
    + split; [exact Herr|]. by rewrite Hsegs.
Qed.

Lemma written_file_tokenizes_witness :
  let env := one_file "in.edi" two_claims in
  let w := snd (parse_input_file env "in.edi" (snd (init World0))) in
  exists content,
    files (snd (write_output_file env "out" CE "in" ".edi" w))
      !! output_filename env "out" CE "in" ".edi" = Some content /\
    snd (Csv.reader content) = false /\
    segments_of content = output_segments w CE 1.
Proof.
  intros env w.
  apply (written_file_tokenizes env "out" CE "in" ".edi" w 1%N).
  - vm_compute. reflexivity.
  - reflexivity.
  - reflexivity.
  - vm_compute. repeat constructor; intros; try discriminate; vm_compute; lia.
  - vm_compute. repeat constructor; discriminate.
Defined.

(** ** A GE segment without a count *)

Lemma for_each_app {A} (body : A -> M unit) l1 l2 w :
  for_each (l1 ++ l2) body w =
  bind (for_each l1 body) (fun _ => for_each l2 body) w.
Proof.
  revert w. induction l1 as [|x l1 IH]; intros w; simpl; [reflexivity|].
  unfold bind. destruct (body x w) as [[[]|e|c] w']; try reflexivity.
  rewrite IH. reflexivity.
Qed.

(** X19. When a footer segment that starts with GE has no element 1,
    [write_output_file] for a claim type with claims raises IndexError,
    which nothing in the program handles.  By
    then the file is open and holds the header, the claims of the type,
    the footer segments before that one and one more delimiter: a
    truncated file is left behind. *)
Theorem write_output_file_missing_count
    env output_dir t prefix suffix w n pre segment post :
  claim_counts w !! Some t = Some n -> (0 < n)%N ->
  open_w env (output_filename env output_dir t prefix suffix) = None ->
  footer w = pre ++ segment :: post ->
  footer_has_counts pre ->
  Py.startswith segment FOOTER_CLAIM_COUNT_SEGMENT = true ->
  length (Py.split segment ELEMENT_DELIMITER) <= 1 ->
  write_output_file env output_dir t prefix suffix w =
    (Raise IndexError,
     set_files w (<[output_filename env output_dir t prefix suffix :=
                    Py.join "~" (header w) +:+ claims_text w t (claims w)
                    +:+ footer_text n pre +:+ "~"]> (files w))).
Proof.
  intros Hn Hpos Ho Hfooter Hpre Hge Hlen. unfold write_output_file.
  unfold bind at 1, counts_getitem at 1. rewrite Hn.
  destruct (N.eqb_spec n 0) as [->|_]; [lia|]. cbn [negb].
  fold (output_filename env output_dir t prefix suffix). rewrite Ho.
  unfold bind at 1, fh_open at 1.
  fold (writing (output_filename env output_dir t prefix suffix) w (files w) EmptyString).
  unfold bind at 1, get_world at 1. cbn [header claims footer writing set_files].
  fold (writing (output_filename env output_dir t prefix suffix) w (files w) EmptyString).
  unfold bind at 1. rewrite fh_write_writing.
  unfold bind at 1. rewrite write_claims_writing.
  rewrite Hfooter, for_each_app. unfold bind at 1.
  rewrite (write_footer_writing _ _ _ _ n) by assumption.
  cbn [for_each]. unfold bind at 1. unfold write_footer_segment.
  unfold bind at 1. rewrite fh_write_writing. rewrite Hge.
  unfold bind at 1 2, counts_getitem at 1. simpl claim_counts. rewrite Hn.
  unfold list_setitem, CLAIM_COUNT_ELEMENT_NUM. rewrite decide_False by lia.
  unfold raise, writing. by rewrite !string_app_assoc.
Qed.

Lemma write_output_file_missing_count_witness :
  let env := one_file "in.edi" footer_without_count in
  let w := snd (parse_input_file env "in.edi" (snd (init World0))) in
  write_output_file env "out" CE "in" ".edi" w =
    (Raise IndexError,
     set_files w (<[output_filename env "out" CE "in" ".edi" :=
                    Py.join "~" (header w) +:+ claims_text w CE (claims w)
                    +:+ footer_text 1 [] +:+ "~"]> (files w))).
Proof.
  intros env w.
  apply (write_output_file_missing_count env "out" CE "in" ".edi" w 1%N
           [] "GE" ["IEA*1"]).
  - vm_compute. reflexivity.
  - reflexivity.
  - reflexivity.
  - vm_compute. reflexivity.
  - constructor.
  - reflexivity.
  - vm_compute. lia.
Defined.
